(** * my_monitor: the dashboard script [static/js/app.js]

    A shallow embedding of the alert pipeline of [app.js]: the global
    alert store, the search request, the summary metrics, the two chart
    series, the table and the chart slots, followed by the properties of
    the specification that were checked against it.

    JavaScript strings are modelled as [string], read as the UTF-8
    encoding of the text; JavaScript arrays as [list]; a plain object used
    as a dictionary as an association list in property-creation order,
    with the lookups that fall through to [Object.prototype] written out;
    a [Set] as a duplicate-free list in insertion order. *)

From Stdlib Require Import List String Ascii ZArith NArith Bool Lia Arith.
From Stdlib Require Import Permutation Sorted DecimalString DecimalPos.
Import ListNotations.
Open Scope string_scope.
Open Scope list_scope.

(** String concatenation, as [+] on strings. *)
Infix "^" := String.append (at level 30, right associativity) : string_scope.

Set Implicit Arguments.

(** ** Strings *)

Module Str.

(** [s.split(sep)[..]] for a one-character separator: the fields between
    the occurrences of [sep]; a string without [sep] is one field. *)
Fixpoint split (sep : ascii) (s : string) : list string :=
  match s with
  | EmptyString => [EmptyString]
  | String c s' =>
      if Ascii.eqb c sep then EmptyString :: split sep s'
      else match split sep s' with
           | f :: fs => String c f :: fs
           | [] => [String c EmptyString]
           end
  end.

Fixpoint contains (c : ascii) (s : string) : bool :=
  match s with
  | EmptyString => false
  | String d s' => Ascii.eqb d c || contains c s'
  end.

Fixpoint rev_onto (s acc : string) : string :=
  match s with
  | EmptyString => acc
  | String c s' => rev_onto s' (String c acc)
  end.

Definition rev (s : string) : string := rev_onto s EmptyString.

(** The code points of ECMAScript's WhiteSpace and LineTerminator, each
    as its UTF-8 bytes: what [String.prototype.trim] strips. *)
Definition bytes (l : list nat) : string :=
  string_of_list_ascii (map ascii_of_nat l).

Definition whitespace : list string :=
  map bytes
    [ [9]; [10]; [11]; [12]; [13]; [32];
      [194; 160]; [225; 154; 128];
      [226; 128; 128]; [226; 128; 129]; [226; 128; 130]; [226; 128; 131];
      [226; 128; 132]; [226; 128; 133]; [226; 128; 134]; [226; 128; 135];
      [226; 128; 136]; [226; 128; 137]; [226; 128; 138];
      [226; 128; 168]; [226; 128; 169]; [226; 128; 175];
      [226; 129; 159]; [227; 128; 128]; [239; 187; 191] ].

Fixpoint strip_prefix (p s : string) : option string :=
  match p, s with
  | EmptyString, _ => Some s
  | String a p', String b s' =>
      if Ascii.eqb a b then strip_prefix p' s' else None
  | String _ _, EmptyString => None
  end.

Fixpoint strip_any (ps : list string) (s : string) : option string :=
  match ps with
  | [] => None
  | p :: ps' =>
      match strip_prefix p s with
      | Some r => Some r
      | None => strip_any ps' s
      end
  end.

(** Leading white space is dropped; [fuel] bounds the number of
    characters dropped and is given as the length of the string. *)
Fixpoint trim_start_fuel (ws : list string) (fuel : nat) (s : string)
  : string :=
  match fuel with
  | O => s
  | S fuel' =>
      match strip_any ws s with
      | Some r => trim_start_fuel ws fuel' r
      | None => s
      end
  end.

Definition trimStart (s : string) : string :=
  trim_start_fuel whitespace (String.length s) s.

Definition trimEnd (s : string) : string :=
  rev (trim_start_fuel (map rev whitespace) (String.length s) (rev s)).

Definition trim (s : string) : string := trimEnd (trimStart s).

Definition of_Z (z : Z) : string := NilZero.string_of_int (Z.to_int z).
Definition of_nat (n : nat) : string := of_Z (Z.of_nat n).

Definition is_empty (s : string) : bool :=
  match s with EmptyString => true | _ => false end.

End Str.

(** ** Values and plain objects *)

(** The names every plain object inherits from [Object.prototype].  Each
    of them reads as a function, except ["__proto__"], which reads as
    [Object.prototype] itself; all of them are truthy. *)
Definition Object_prototype : list string :=
  [ "constructor"; "hasOwnProperty"; "isPrototypeOf"; "propertyIsEnumerable";
    "toLocaleString"; "toString"; "valueOf"; "__proto__";
    "__defineGetter__"; "__defineSetter__";
    "__lookupGetter__"; "__lookupSetter__" ].

Fixpoint mem (k : string) (l : list string) : bool :=
  match l with
  | [] => false
  | x :: l' => String.eqb k x || mem k l'
  end.

(** Primitive values met in the script. *)
Inductive prim : Type :=
| Undefined
| Num (n : Z)
| Text (s : string).

(** Values: a primitive, or the object inherited under a name of
    [Object.prototype]. *)
Inductive jsval : Type :=
| Prim (p : prim)
| Inherited (name : string).

Definition truthy (v : jsval) : bool :=
  match v with
  | Prim Undefined => false
  | Prim (Num n) => negb (Z.eqb n 0)
  | Prim (Text s) => negb (Str.is_empty s)
  | Inherited _ => true
  end.

(** [a || b] *)
Definition js_or (a b : jsval) : jsval := if truthy a then a else b.

(** [String(v)].  An inherited function prints as native code under its
    own name ([Object] for the constructor); [Object.prototype] prints as
    a plain object. *)
Definition ToString (v : jsval) : string :=
  match v with
  | Prim Undefined => "undefined"
  | Prim (Num n) => Str.of_Z n
  | Prim (Text s) => s
  | Inherited name =>
      if String.eqb name "__proto__" then "[object Object]"
      else "function "
             ^ (if String.eqb name "constructor" then "Object" else name)
             ^ "() { [native code] }"
  end.

(** [v + 1]: numeric addition on a number, concatenation otherwise. *)
Definition plus_one (v : jsval) : prim :=
  match v with
  | Prim (Num n) => Num (n + 1)
  | _ => Text (ToString v ^ "1")
  end.

Module Obj.

(** Own properties, in creation order. *)
Definition t : Type := list (string * prim).

Fixpoint own (o : t) (k : string) : option prim :=
  match o with
  | [] => None
  | (k', v) :: o' => if String.eqb k k' then Some v else own o' k
  end.

(** [o[k]]: the own property, else what [Object.prototype] has. *)
Definition get (o : t) (k : string) : jsval :=
  match own o k with
  | Some v => Prim v
  | None => if mem k Object_prototype then Inherited k else Prim Undefined
  end.

Fixpoint put (o : t) (k : string) (v : prim) : t :=
  match o with
  | [] => [(k, v)]
  | (k', v') :: o' =>
      if String.eqb k k' then (k', v) :: o' else (k', v') :: put o' k v
  end.

(** [o[k] = v] for a primitive [v]: the ["__proto__"] setter ignores
    primitives; any other name becomes or updates an own property. *)
Definition set (o : t) (k : string) (v : prim) : t :=
  if String.eqb k "__proto__" then o else put o k v.

Definition is_digit (c : ascii) : bool :=
  let n := nat_of_ascii c in (48 <=? n)%nat && (n <=? 57)%nat.

Fixpoint digits (s : string) (acc : N) : option N :=
  match s with
  | EmptyString => Some acc
  | String c s' =>
      if is_digit c
      then digits s' (acc * 10 + N.of_nat (nat_of_ascii c - 48))%N
      else None
  end.

(** An array index: the canonical decimal form of an integer below
    [2^32 - 1]. *)
Definition array_index (k : string) : option N :=
  match k with
  | EmptyString => None
  | String c rest =>
      if Ascii.eqb c "0" && negb (Str.is_empty rest) then None
      else match digits k 0%N with
           | Some n => if (n <? 4294967295)%N then Some n else None
           | None => None
           end
  end.

Definition is_index (k : string) : bool :=
  match array_index k with Some _ => true | None => false end.

Definition index_of (k : string) : N :=
  match array_index k with Some n => n | None => 0%N end.

Fixpoint insert_by_index (e : string * prim) (l : list (string * prim))
  : list (string * prim) :=
  match l with
  | [] => [e]
  | x :: l' =>
      if (index_of (fst e) <? index_of (fst x))%N then e :: x :: l'
      else x :: insert_by_index e l'
  end.

Definition sort_by_index (l : list (string * prim)) : list (string * prim) :=
  fold_right insert_by_index [] l.

(** Own property order: array indices ascending, then the other names in
    creation order. *)
Definition entries (o : t) : list (string * prim) :=
  sort_by_index (filter (fun e => is_index (fst e)) o)
    ++ filter (fun e => negb (is_index (fst e))) o.

Definition keys (o : t) : list string := map fst (entries o).
Definition values (o : t) : list prim := map snd (entries o).

End Obj.

(** ** Data model *)

(** One alert as the backend returns it.  The fields are read as the
    data model types them: strings, and an integer for [value] (the form
    submits [parseInt] of its input).  The script itself reads untyped
    JSON: a record that lacks a field, or whose [value] is no number, is
    outside this type, and what is proved of records is proved of these
    ones. *)
Record AlertRecord : Type := {
  created_at : string;
  hostname : string;
  metric : string;
  value : Z;
  message : string
}.

(** ** formatMetricName *)

Definition metric_map : Obj.t :=
  [ ("cpu_usage", Text "CPU使用率");
    ("mem_usage", Text "内存使用率");
    ("disk_usage", Text "磁盘使用率");
    ("network_in", Text "入站流量");
    ("network_out", Text "出站流量") ].

Definition formatMetricName (metric : string) : jsval :=
  js_or (Obj.get metric_map metric) (Prim (Text metric)).

(** ** Array and Set operations used by the script *)

Module Arr.

(** [a.slice(-n)]: the last [n] elements, all of them when there are
    fewer. *)
Definition slice_last (A : Type) (n : nat) (a : list A) : list A :=
  skipn (List.length a - n) a.

(** [a.sort(comparefn)].  The comparator yields [None] for [NaN], which
    the sort reads as [+0].  The sort is stable; for a consistent
    comparator every stable sort returns this list. *)
Section Sort.
Variable A : Type.
Variable comparefn : A -> A -> option Z.

Definition SortCompare (x y : A) : Z :=
  match comparefn x y with
  | Some v => v
  | None => 0%Z
  end.

Fixpoint insert (x : A) (l : list A) : list A :=
  match l with
  | [] => [x]
  | y :: l' =>
      if (0 <? SortCompare x y)%Z then y :: insert x l'
      else x :: y :: l'
  end.

Definition sort (a : list A) : list A := fold_right insert [] a.
End Sort.

End Arr.

Module JSSet.

(** A [Set] of strings: its elements in insertion order. *)
Definition t : Type := list string.

Definition add (s : t) (x : string) : t :=
  if mem x s then s else s ++ [x].

(** [new Set(iterable)] *)
Definition of_list (l : list string) : t := fold_left add l [].

(** [[...set]] *)
Definition spread (s : t) : list string := s.

End JSSet.

(** ** updateCoreMetrics: the values it computes *)

Record CoreMetrics : Type := {
  total : nat;
  errorHosts : list string;
  normalCount : nat;
  systemStatus : string
}.

Definition coreMetrics (alertsData : list AlertRecord) : CoreMetrics :=
  let errorHosts :=
    JSSet.spread
      (JSSet.of_list
         (map hostname (filter (fun a => (80 <? value a)%Z) alertsData))) in
  let normalCount :=
    List.length (filter (fun a => (value a <=? 80)%Z) alertsData) in
  let systemStatus :=
    if (0 <? List.length errorHosts)%nat then "警告" else "正常" in
  {| total := List.length alertsData;
     errorHosts := errorHosts;
     normalCount := normalCount;
     systemStatus := systemStatus |}.

Definition errorHostCount (alertsData : list AlertRecord) : nat :=
  List.length (errorHosts (coreMetrics alertsData)).

(** ** processChartData *)

Record Series : Type := {
  labels : list prim;
  values : list prim
}.

Record ChartData : Type := {
  cpuData : Series;
  alertTypeData : Series
}.

(** [a[i]] on an array of strings: [undefined] out of range. *)
Definition at_index (a : list string) (i : nat) : prim :=
  match nth_error a i with
  | Some s => Text s
  | None => Undefined
  end.

Definition count_metric (metricCount : Obj.t) (a : AlertRecord) : Obj.t :=
  let metricName := ToString (formatMetricName (metric a)) in
  Obj.set metricCount metricName
    (plus_one (js_or (Obj.get metricCount metricName) (Prim (Num 0)))).

Definition metricCount (alertsData : list AlertRecord) : Obj.t :=
  fold_left count_metric alertsData [].

Definition alertTypeLabels (alertsData : list AlertRecord) : list string :=
  Obj.keys (metricCount alertsData).

Definition alertTypeValues (alertsData : list AlertRecord) : list prim :=
  Obj.values (metricCount alertsData).

Definition cpuLabel (a : AlertRecord) : prim :=
  at_index (Str.split " " (created_at a)) 1.

Section Dated.

(** [new Date(s)] as a time value in milliseconds; [None] is an invalid
    date.  How a string that is not in ISO form parses is left to the
    engine, so the parser is a parameter of everything that sorts. *)
Variable Date_parse : string -> option Z.

(** [new Date(a.created_at) - new Date(b.created_at)]; [None] is [NaN]. *)
Definition by_created_at (a b : AlertRecord) : option Z :=
  match Date_parse (created_at a), Date_parse (created_at b) with
  | Some x, Some y => Some (x - y)%Z
  | _, _ => None
  end.

Definition cpuAlerts (alertsData : list AlertRecord) : list AlertRecord :=
  Arr.slice_last 10
    (Arr.sort by_created_at
       (filter (fun a => String.eqb (metric a) "cpu_usage") alertsData)).

Definition processChartData (alertsData : list AlertRecord) : ChartData :=
  let cpuAlerts := cpuAlerts alertsData in
  let cpuLabels := map cpuLabel cpuAlerts in
  let cpuValues := map (fun a => Num (value a)) cpuAlerts in
  {| cpuData := {| labels := cpuLabels; values := cpuValues |};
     alertTypeData :=
       {| labels := map Text (alertTypeLabels alertsData);
          values := alertTypeValues alertsData |} |}.

End Dated.

(** One admissible parser, used in the examples: it reads
    [YYYY-MM-DD HH:MM:SS] (a space or a [T] in the middle) as UTC. *)
Module UTC.

Definition field (s : string) (start len : nat) : option Z :=
  let f := String.substring start len s in
  if (String.length f =? len)%nat
  then option_map Z.of_N (Obj.digits f 0%N)
  else None.

Definition days_from_civil (y m d : Z) : Z :=
  let y' := (if m <=? 2 then y - 1 else y)%Z in
  let era := (y' / 400)%Z in
  let yoe := (y' - era * 400)%Z in
  let mp := ((m + 9) mod 12)%Z in
  let doy := ((153 * mp + 2) / 5 + d - 1)%Z in
  let doe := (yoe * 365 + yoe / 4 - yoe / 100 + doy)%Z in
  (era * 146097 + doe - 719468)%Z.

Definition sep_ok (s : string) (i : nat) (cs : list ascii) : bool :=
  match String.get i s with
  | Some c => existsb (Ascii.eqb c) cs
  | None => false
  end.

Definition parse (s : string) : option Z :=
  match field s 0 4, field s 5 2, field s 8 2,
        field s 11 2, field s 14 2, field s 17 2 with
  | Some y, Some m, Some d, Some hh, Some mm, Some ss =>
      if (String.length s =? 19)%nat
         && sep_ok s 4 ["-"%char] && sep_ok s 7 ["-"%char]
         && sep_ok s 10 [" "%char; "T"%char]
         && sep_ok s 13 [":"%char] && sep_ok s 16 [":"%char]
         && (1 <=? m)%Z && (m <=? 12)%Z && (1 <=? d)%Z && (d <=? 31)%Z
         && (hh <=? 23)%Z && (mm <=? 59)%Z && (ss <=? 59)%Z
      then Some ((((days_from_civil y m d * 24 + hh) * 60 + mm) * 60 + ss)
                 * 1000)%Z
      else None
  | _, _, _, _, _, _ => None
  end.

End UTC.

(** ** Requests *)

Module URLSearchParams.

Definition t : Type := list (string * string).

Definition append (ps : t) (name val : string) : t := ps ++ [(name, val)].

Definition hex_digit (n : nat) : ascii :=
  ascii_of_nat (if (n <? 10)%nat then 48 + n else 55 + n).

(** One byte under the [application/x-www-form-urlencoded] serializer. *)
Definition encode_byte (c : ascii) : string :=
  let n := nat_of_ascii c in
  if ((48 <=? n) && (n <=? 57) || (65 <=? n) && (n <=? 90)
      || (97 <=? n) && (n <=? 122)
      || (n =? 42) || (n =? 45) || (n =? 46) || (n =? 95))%nat
  then String c EmptyString
  else if (n =? 32)%nat then "+"
  else String "%" (String (hex_digit (n / 16))
                     (String (hex_digit (n mod 16)) EmptyString)).

Fixpoint encode (s : string) : string :=
  match s with
  | EmptyString => EmptyString
  | String c s' => (encode_byte c ^ encode s')%string
  end.

Fixpoint toString (ps : t) : string :=
  match ps with
  | [] => EmptyString
  | [(n, v)] => encode n ^ "=" ^ encode v
  | (n, v) :: ps' => encode n ^ "=" ^ encode v ^ "&" ^ toString ps'
  end.

End URLSearchParams.

Record Request : Type := {
  url : string;
  method : string;
  content_type : string;
  body : string
}.

(** [parseInt(s)]: leading white space, a sign, then decimal digits, or
    hexadecimal ones after [0x]; [None] is [NaN].  Exact for the integers
    a double holds. *)
Module ParseInt.

Definition digit_value (radix : nat) (c : ascii) : option Z :=
  let n := nat_of_ascii c in
  let d := if ((48 <=? n) && (n <=? 57))%nat then Some (n - 48)
           else if ((97 <=? n) && (n <=? 122))%nat then Some (n - 87)
           else if ((65 <=? n) && (n <=? 90))%nat then Some (n - 55)
           else None in
  match d with
  | Some v => if (v <? radix)%nat then Some (Z.of_nat v) else None
  | None => None
  end.

Fixpoint read (radix : nat) (s : string) (acc : option Z) : option Z :=
  match s with
  | EmptyString => acc
  | String c s' =>
      match digit_value radix c with
      | Some d =>
          read radix s'
            (Some (match acc with Some a => a | None => 0 end
                   * Z.of_nat radix + d)%Z)
      | None => acc
      end
  end.

Definition unsigned (s : string) : option Z :=
  match s with
  | String "0" (String x s') =>
      if Ascii.eqb x "x" || Ascii.eqb x "X" then read 16 s' None
      else read 10 s None
  | _ => read 10 s None
  end.

Definition parseInt (s : string) : option Z :=
  match Str.trimStart s with
  | String "-" s' => option_map Z.opp (unsigned s')
  | String "+" s' => unsigned s'
  | s' => unsigned s'
  end.

Definition show (v : option Z) : string :=
  match v with Some z => Str.of_Z z | None => "NaN" end.

End ParseInt.

(** ** The page: globals, document, and the world around the script *)

(** What [alertsData] or [result.alerts] can hold when the backend keeps
    to its contract; a body with something else in [alerts] is followed
    apart, in [refreshAlerts_number]. *)
Inductive maybe_array : Type :=
| AUndefined
| ANull
| Array (l : list AlertRecord).

(** [v || []]: an array is truthy, also the empty one. *)
Definition or_empty (v : maybe_array) : maybe_array :=
  match v with
  | Array l => Array l
  | _ => Array []
  end.

Record Error : Type := {
  error_name : string;
  error_message : string
}.

Record Chart : Type := {
  chart_id : nat;
  chart_canvas : string;
  chart_type : string;
  chart_series : Series;
  chart_colors : list string
}.

(** What Chart.js is told. *)
Inductive ChartEvent : Type :=
| Created (c : Chart)
| Destroyed (c : Chart).

Record Cards : Type := {
  total_alerts : string;
  error_hosts : string;
  normal_count : string;
  system_status : string;
  system_status_class : string
}.

Record SearchForm : Type := {
  search_hostname : string;
  search_start_time : string;
  search_end_time : string
}.

Record AlertForm : Type := {
  form_hostname : string;
  form_metric : string;
  form_value : string;
  form_message : string
}.

Record Page : Type := {
  (* the script's globals *)
  alertsData : maybe_array;
  cpuTrendChart : option Chart;
  alertTypeChart : option Chart;
  (* the document: the rows of the table body, each by its innerHTML *)
  alerts_table_body : list string;
  cards : Cards;
  search_form : SearchForm;
  search_form_default : SearchForm;
  alert_form : AlertForm;
  alert_form_default : AlertForm;
  (* the world *)
  chart_log : list ChartEvent;
  dialogs : list string;
  console : list Error;
  requests : list Request
}.

Definition with_alertsData (v : maybe_array) (p : Page) : Page :=
  {| alertsData := v; cpuTrendChart := cpuTrendChart p;
     alertTypeChart := alertTypeChart p;
     alerts_table_body := alerts_table_body p; cards := cards p;
     search_form := search_form p;
     search_form_default := search_form_default p;
     alert_form := alert_form p; alert_form_default := alert_form_default p;
     chart_log := chart_log p; dialogs := dialogs p; console := console p;
     requests := requests p |}.

Definition with_cpuTrendChart (v : option Chart) (p : Page) : Page :=
  {| alertsData := alertsData p; cpuTrendChart := v;
     alertTypeChart := alertTypeChart p;
     alerts_table_body := alerts_table_body p; cards := cards p;
     search_form := search_form p;
     search_form_default := search_form_default p;
     alert_form := alert_form p; alert_form_default := alert_form_default p;
     chart_log := chart_log p; dialogs := dialogs p; console := console p;
     requests := requests p |}.

Definition with_alertTypeChart (v : option Chart) (p : Page) : Page :=
  {| alertsData := alertsData p; cpuTrendChart := cpuTrendChart p;
     alertTypeChart := v;
     alerts_table_body := alerts_table_body p; cards := cards p;
     search_form := search_form p;
     search_form_default := search_form_default p;
     alert_form := alert_form p; alert_form_default := alert_form_default p;
     chart_log := chart_log p; dialogs := dialogs p; console := console p;
     requests := requests p |}.

Definition with_table_body (v : list string) (p : Page) : Page :=
  {| alertsData := alertsData p; cpuTrendChart := cpuTrendChart p;
     alertTypeChart := alertTypeChart p;
     alerts_table_body := v; cards := cards p;
     search_form := search_form p;
     search_form_default := search_form_default p;
     alert_form := alert_form p; alert_form_default := alert_form_default p;
     chart_log := chart_log p; dialogs := dialogs p; console := console p;
     requests := requests p |}.

Definition with_cards (v : Cards) (p : Page) : Page :=
  {| alertsData := alertsData p; cpuTrendChart := cpuTrendChart p;
     alertTypeChart := alertTypeChart p;
     alerts_table_body := alerts_table_body p; cards := v;
     search_form := search_form p;
     search_form_default := search_form_default p;
     alert_form := alert_form p; alert_form_default := alert_form_default p;
     chart_log := chart_log p; dialogs := dialogs p; console := console p;
     requests := requests p |}.

Definition with_search_form (v : SearchForm) (p : Page) : Page :=
  {| alertsData := alertsData p; cpuTrendChart := cpuTrendChart p;
     alertTypeChart := alertTypeChart p;
     alerts_table_body := alerts_table_body p; cards := cards p;
     search_form := v;
     search_form_default := search_form_default p;
     alert_form := alert_form p; alert_form_default := alert_form_default p;
     chart_log := chart_log p; dialogs := dialogs p; console := console p;
     requests := requests p |}.

Definition with_alert_form (v : AlertForm) (p : Page) : Page :=
  {| alertsData := alertsData p; cpuTrendChart := cpuTrendChart p;
     alertTypeChart := alertTypeChart p;
     alerts_table_body := alerts_table_body p; cards := cards p;
     search_form := search_form p;
     search_form_default := search_form_default p;
     alert_form := v; alert_form_default := alert_form_default p;
     chart_log := chart_log p; dialogs := dialogs p; console := console p;
     requests := requests p |}.

Definition with_chart_log (v : list ChartEvent) (p : Page) : Page :=
  {| alertsData := alertsData p; cpuTrendChart := cpuTrendChart p;
     alertTypeChart := alertTypeChart p;
     alerts_table_body := alerts_table_body p; cards := cards p;
     search_form := search_form p;
     search_form_default := search_form_default p;
     alert_form := alert_form p; alert_form_default := alert_form_default p;
     chart_log := v; dialogs := dialogs p; console := console p;
     requests := requests p |}.

Definition with_dialogs (v : list string) (p : Page) : Page :=
  {| alertsData := alertsData p; cpuTrendChart := cpuTrendChart p;
     alertTypeChart := alertTypeChart p;
     alerts_table_body := alerts_table_body p; cards := cards p;
     search_form := search_form p;
     search_form_default := search_form_default p;
     alert_form := alert_form p; alert_form_default := alert_form_default p;
     chart_log := chart_log p; dialogs := v; console := console p;
     requests := requests p |}.

Definition with_console (v : list Error) (p : Page) : Page :=
  {| alertsData := alertsData p; cpuTrendChart := cpuTrendChart p;
     alertTypeChart := alertTypeChart p;
     alerts_table_body := alerts_table_body p; cards := cards p;
     search_form := search_form p;
     search_form_default := search_form_default p;
     alert_form := alert_form p; alert_form_default := alert_form_default p;
     chart_log := chart_log p; dialogs := dialogs p; console := v;
     requests := requests p |}.

Definition with_requests (v : list Request) (p : Page) : Page :=
  {| alertsData := alertsData p; cpuTrendChart := cpuTrendChart p;
     alertTypeChart := alertTypeChart p;
     alerts_table_body := alerts_table_body p; cards := cards p;
     search_form := search_form p;
     search_form_default := search_form_default p;
     alert_form := alert_form p; alert_form_default := alert_form_default p;
     chart_log := chart_log p; dialogs := dialogs p; console := console p;
     requests := v |}.

(** ** Statements: state passing with exceptions

    A statement runs on a page and completes normally or throws; what it
    wrote before throwing stays written. *)

Inductive Completion (A : Type) : Type :=
| Normal (a : A)
| Throw (e : Error).

Arguments Normal {A} a.
Arguments Throw {A} e.

Definition M (A : Type) : Type := Page -> Completion A * Page.

Definition ret {A : Type} (a : A) : M A := fun p => (Normal a, p).

Definition bind {A B : Type} (m : M A) (k : A -> M B) : M B :=
  fun p =>
    match m p with
    | (Normal a, p') => k a p'
    | (Throw e, p') => (Throw e, p')
    end.

Definition throw {A : Type} (e : Error) : M A := fun p => (Throw e, p).

Definition try_catch {A : Type} (m : M A) (handler : Error -> M A) : M A :=
  fun p =>
    match m p with
    | (Normal a, p') => (Normal a, p')
    | (Throw e, p') => handler e p'
    end.

Definition read {A : Type} (f : Page -> A) : M A := fun p => (Normal (f p), p).
Definition write (f : Page -> Page) : M unit := fun p => (Normal tt, f p).

Notation "x <- m ;; k" := (bind m (fun x => k))
  (at level 61, m at next level, right associativity).
Notation "m ;; k" := (bind m (fun _ => k))
  (at level 61, right associativity).

Fixpoint forEach {A : Type} (a : list A) (f : A -> M unit) : M unit :=
  match a with
  | [] => ret tt
  | x :: a' => f x ;; forEach a' f
  end.

Definition state_after {A : Type} (m : M A) (p : Page) : Page := snd (m p).
Definition completion {A : Type} (m : M A) (p : Page) : Completion A :=
  fst (m p).

(** ** The world: dialogs, console, network, Chart.js *)

Definition window_alert (text : string) : M unit :=
  write (fun p => with_dialogs (dialogs p ++ [text]) p).

Definition console_error (e : Error) : M unit :=
  write (fun p => with_console (console p ++ [e]) p).

Definition mkError (text : string) : Error :=
  {| error_name := "Error"; error_message := text |}.

(** The parsed body of a response, an object: [result.alerts] is
    absent, null or an array of records, [result.message] any
    primitive. *)
Record Result : Type := {
  result_alerts : maybe_array;
  result_message : prim
}.

(** The body of a response: text that is not JSON, or the parsed object. *)
Inductive Payload : Type :=
| Unparseable (why : string)
| Parsed (result : Result).

Record Response : Type := {
  ok : bool;
  payload : Payload
}.

(** How a request ends: the transport fails, or a response arrives. *)
Inductive Outcome : Type :=
| Rejected (why : string)
| Responded (r : Response).

Definition fetch (req : Request) (net : Outcome) : M Response :=
  write (fun p => with_requests (requests p ++ [req]) p) ;;
  match net with
  | Rejected why =>
      throw {| error_name := "TypeError"; error_message := why |}
  | Responded r => ret r
  end.

(** [response.json()] *)
Definition json (r : Response) : M Result :=
  match payload r with
  | Unparseable why =>
      throw {| error_name := "SyntaxError"; error_message := why |}
  | Parsed result => ret result
  end.

Definition new_Chart (canvas type : string) (series : Series)
    (colors : list string) : M Chart :=
  fun p =>
    let c := {| chart_id := List.length (chart_log p);
                chart_canvas := canvas; chart_type := type;
                chart_series := series; chart_colors := colors |} in
    (Normal c, with_chart_log (chart_log p ++ [Created c]) p).

Definition destroy (c : Chart) : M unit :=
  write (fun p => with_chart_log (chart_log p ++ [Destroyed c]) p).

(** Reading a property of [alertsData]: a [TypeError] unless it holds an
    array. *)
Definition alertsData_for (property : string) : M (list AlertRecord) :=
  v <- read alertsData ;;
  match v with
  | Array l => ret l
  | AUndefined =>
      throw {| error_name := "TypeError";
               error_message := "Cannot read properties of undefined (reading '"
                                ^ property ^ "')" |}
  | ANull =>
      throw {| error_name := "TypeError";
               error_message := "Cannot read properties of null (reading '"
                                ^ property ^ "')" |}
  end.

(** ** The table *)

Definition dq : string := String (ascii_of_nat 34) EmptyString.
Definition nl : string := String (ascii_of_nat 10) EmptyString.

(** The markup of one cell. *)
Definition td (colspan : nat) (class text : string) : string :=
  "<td colspan=" ^ dq ^ Str.of_nat colspan ^ dq
  ^ " class=" ^ dq ^ class ^ dq ^ ">" ^ text ^ "</td>".

(** The row of [<tr><td colspan="5" class="text-center">...</td></tr>]. *)
Definition placeholder_row : string :=
  "<td colspan=" ^ dq ^ "5" ^ dq ^ " class=" ^ dq ^ "text-center" ^ dq
  ^ ">暂无告警数据</td>".

Definition statusLabel (alert : AlertRecord) : string :=
  if (80 <? value alert)%Z
  then "<span class=" ^ dq ^ "badge bg-warning" ^ dq ^ ">警告</span>"
  else "<span class=" ^ dq ^ "badge bg-info" ^ dq ^ ">提示</span>".

Definition row_html (alert : AlertRecord) : string :=
  nl ^ "            <td>" ^ created_at alert ^ "</td>"
  ^ nl ^ "            <td>" ^ hostname alert ^ "</td>"
  ^ nl ^ "            <td>" ^ ToString (formatMetricName (metric alert))
  ^ "</td>"
  ^ nl ^ "            <td>" ^ Str.of_Z (value alert) ^ "%</td>"
  ^ nl ^ "            <td>" ^ statusLabel alert ^ "</td>"
  ^ nl ^ "        ".

Definition renderAlertsTable : M unit :=
  write (with_table_body []) ;;
  data <- alertsData_for "length" ;;
  if (List.length data =? 0)%nat
  then write (with_table_body [placeholder_row])
  else forEach data (fun alert =>
         write (fun p =>
                  with_table_body (alerts_table_body p ++ [row_html alert]) p)).

(** ** The summary cards *)

Definition updateCoreMetrics : M unit :=
  data <- alertsData_for "length" ;;
  let m := coreMetrics data in
  write (with_cards
           {| total_alerts := Str.of_nat (total m);
              error_hosts := Str.of_nat (List.length (errorHosts m));
              normal_count := Str.of_nat (normalCount m);
              system_status := systemStatus m;
              system_status_class :=
                if String.eqb (systemStatus m) "警告"
                then "card-text display-4 text-warning"
                else "card-text display-4 text-success" |}).

(** ** The charts *)

Definition cpu_canvas : string := "cpuTrendChart".
Definition type_canvas : string := "alertTypeChart".

Definition renderCpuTrendChart (data : Series) : M unit :=
  old <- read cpuTrendChart ;;
  match old with
  | Some c => destroy c
  | None => ret tt
  end ;;
  c <- new_Chart cpu_canvas "line" data ["#0d6efd"] ;;
  write (with_cpuTrendChart (Some c)).

Definition colors : list string :=
  [ "#0d6efd"; "#198754"; "#ffc107"; "#dc3545"; "#6f42c1"; "#20c997" ].

Definition renderAlertTypeChart (data : Series) : M unit :=
  old <- read alertTypeChart ;;
  match old with
  | Some c => destroy c
  | None => ret tt
  end ;;
  c <- new_Chart type_canvas "doughnut" data
         (firstn (List.length (labels data)) colors) ;;
  write (with_alertTypeChart (Some c)).

Section Handlers.

Variable Date_parse : string -> option Z.

Definition renderCharts : M unit :=
  data <- alertsData_for "filter" ;;
  let chartData := processChartData Date_parse data in
  renderCpuTrendChart (cpuData chartData) ;;
  renderAlertTypeChart (alertTypeData chartData).

(** [net] is how the request of this call ends. *)
Definition refreshAlerts (net : Outcome) : M unit :=
  try_catch
    (response <- fetch {| url := "/alerts/"; method := "GET";
                          content_type := EmptyString;
                          body := EmptyString |} net ;;
     (if negb (ok response) then throw (mkError "接口请求失败")
      else ret tt) ;;
     result <- json response ;;
     write (with_alertsData (or_empty (result_alerts result))) ;;
     renderAlertsTable ;;
     updateCoreMetrics ;;
     renderCharts)
    (fun error =>
       window_alert ("刷新数据失败：" ^ error_message error) ;;
       console_error error).

Definition search_params (f : SearchForm) : URLSearchParams.t :=
  let hostname := Str.trim (search_hostname f) in
  let startTime := search_start_time f in
  let endTime := search_end_time f in
  let params := [] in
  let params :=
    if negb (Str.is_empty hostname)
    then URLSearchParams.append params "hostname" hostname else params in
  let params :=
    if negb (Str.is_empty startTime)
    then URLSearchParams.append params "start_time" startTime
    else params in
  let params :=
    if negb (Str.is_empty endTime)
    then URLSearchParams.append params "end_time" endTime else params in
  params.

Definition search_request (f : SearchForm) : Request :=
  {| url := "/alerts/search?" ^ URLSearchParams.toString (search_params f);
     method := "GET"; content_type := "application/json";
     body := EmptyString |}.

Definition array_length (v : maybe_array) : nat :=
  match v with Array l => List.length l | _ => 0 end.

Definition searchAlerts (net : Outcome) : M unit :=
  f <- read search_form ;;
  try_catch
    (response <- fetch (search_request f) net ;;
     (if negb (ok response) then throw (mkError "搜索失败") else ret tt) ;;
     result <- json response ;;
     write (with_alertsData (or_empty (result_alerts result))) ;;
     renderAlertsTable ;;
     updateCoreMetrics ;;
     renderCharts ;;
     data <- alertsData_for "length" ;;
     window_alert ("搜索完成，共找到 " ^ Str.of_nat (List.length data)
                   ^ " 条记录"))
    (fun error =>
       window_alert ("搜索告警失败：" ^ error_message error) ;;
       console_error error).

Definition resetSearch (net : Outcome) : M unit :=
  write (fun p => with_search_form (search_form_default p) p) ;;
  refreshAlerts net.

Definition submit_request (f : AlertForm) : Request :=
  let hostname := Str.trim (form_hostname f) in
  let metric := form_metric f in
  let value := ParseInt.parseInt (form_value f) in
  let message :=
    if negb (Str.is_empty (Str.trim (form_message f)))
    then Str.trim (form_message f)
    else ToString (formatMetricName metric) ^ "异常" in
  {| url := "/alerts/"; method := "POST";
     content_type := "application/x-www-form-urlencoded";
     body := URLSearchParams.toString
               [ ("hostname", hostname); ("metric", metric);
                 ("value", ParseInt.show value); ("message", message) ] |}.

(** [post] ends the submission, [get] the refresh that follows a
    successful one. *)
Definition submitAlert (post get : Outcome) : M unit :=
  f <- read alert_form ;;
  try_catch
    (response <- fetch (submit_request f) post ;;
     (if negb (ok response) then throw (mkError "提交失败") else ret tt) ;;
     result <- json response ;;
     window_alert (ToString (Prim (result_message result))) ;;
     write (fun p => with_alert_form (alert_form_default p) p) ;;
     refreshAlerts get)
    (fun error =>
       window_alert ("提交告警失败：" ^ error_message error) ;;
       console_error error).

(** What can happen to the page, one event at a time. *)
Inductive Action : Type :=
| DoRefresh (net : Outcome)
| DoSearch (net : Outcome)
| DoResetSearch (net : Outcome)
| DoSubmit (post get : Outcome)
| EditSearch (f : SearchForm)
| EditAlert (f : AlertForm)
| RepaintCpu (data : Series)
| RepaintTypes (data : Series).

Definition perform (a : Action) : M unit :=
  match a with
  | DoRefresh net => refreshAlerts net
  | DoSearch net => searchAlerts net
  | DoResetSearch net => resetSearch net
  | DoSubmit post get => submitAlert post get
  | EditSearch f => write (with_search_form f)
  | EditAlert f => write (with_alert_form f)
  | RepaintCpu data => renderCpuTrendChart data
  | RepaintTypes data => renderAlertTypeChart data
  end.

Definition run (actions : list Action) (p : Page) : Page :=
  fold_left (fun p a => state_after (perform a) p) actions p.

End Handlers.

(** The page as the script finds it: an empty store, no chart yet. *)
Definition initial_page (sf : SearchForm) (af : AlertForm) : Page :=
  {| alertsData := Array []; cpuTrendChart := None; alertTypeChart := None;
     alerts_table_body := [];
     cards := {| total_alerts := EmptyString; error_hosts := EmptyString;
                 normal_count := EmptyString; system_status := EmptyString;
                 system_status_class := EmptyString |};
     search_form := sf; search_form_default := sf;
     alert_form := af; alert_form_default := af;
     chart_log := []; dialogs := []; console := []; requests := [] |}.

(** The charts alive on a canvas after a log of Chart.js events:
    [new Chart] on the canvas adds its chart, [destroy] removes it. *)
Definition same_chart (c d : Chart) : bool := (chart_id c =? chart_id d)%nat.

Definition on_canvas (canvas : string) (c : Chart) : bool :=
  String.eqb (chart_canvas c) canvas.

Definition chart_step (canvas : string) (alive : list Chart)
    (e : ChartEvent) : list Chart :=
  match e with
  | Created c => if on_canvas canvas c then alive ++ [c] else alive
  | Destroyed c => filter (fun d => negb (same_chart c d)) alive
  end.

Definition live (canvas : string) (log : list ChartEvent) : list Chart :=
  fold_left (chart_step canvas) log [].

Definition option_list (A : Type) (o : option A) : list A :=
  match o with Some a => [a] | None => [] end.

Definition mkAlert (t h m : string) (v : Z) : AlertRecord :=
  {| created_at := t; hostname := h; metric := m; value := v;
     message := EmptyString |}.

(** ** A response of another shape

    The handlers look at the status of a response and need its body to
    be JSON; what the parsed body holds they do not look at:
    [result.alerts || []] keeps any truthy value (lines 24 and 60).  A
    [Page] has a collection, null or undefined in [alertsData].  What
    follows is the load whose body is [{"alerts": n}] with [n] a positive
    whole number, and the page it leaves, where [alertsData] is that
    number. *)

Record NumberPage : Type := {
  (* the global [alertsData] *)
  number_held : Z;
  (* the document, the chart slots and the world; the store is
     [number_held], the field [alertsData] of this page is not it *)
  around : Page
}.

Definition not_a_function (property : string) : Error :=
  {| error_name := "TypeError";
     error_message := "alertsData." ^ property ^ " is not a function" |}.

(** [renderAlertsTable] while [alertsData] is a number.  Line 85 empties
    the body; on line 87 [alertsData.length] is [undefined], which is not
    [0], so there is no placeholder; on line 93 [alertsData.forEach] is
    [undefined], and the call throws. *)
Definition renderAlertsTable_number : M unit :=
  write (with_table_body []) ;;
  throw (not_a_function "forEach").

(** [refreshAlerts] when the request ends in a response with a success
    status and the body [{"alerts": n}].  Line 20 sends the request, the
    checks of lines 21 and 23 pass, line 24 stores [n], being truthy, and
    line 27 renders the table; the call throws, so lines 28 and 29 are
    not reached and lines 31 and 32 run. *)
Definition refreshAlerts_number (n : positive) (p : Page)
    : Completion unit * NumberPage :=
  let after :=
    try_catch
      (write (fun p =>
                with_requests
                  (requests p ++ [{| url := "/alerts/"; method := "GET";
                                     content_type := EmptyString;
                                     body := EmptyString |}]) p) ;;
       renderAlertsTable_number)
      (fun error =>
         window_alert ("刷新数据失败：" ^ error_message error) ;;
         console_error error)
      p in
  (fst after, {| number_held := Z.pos n; around := snd after |}).

(** * Vocabulary of the properties *)

(** ** Time *)

Section Timestamps.

Variable Date_parse : string -> option Z.

(** The filter of the trend. *)
Definition is_cpu (a : AlertRecord) : bool :=
  String.eqb (metric a) "cpu_usage".

(** [a] is not later than [b], both timestamps being dates. *)
Definition time_le (a b : AlertRecord) : Prop :=
  exists x y, Date_parse (created_at a) = Some x
              /\ Date_parse (created_at b) = Some y /\ (x <= y)%Z.

(** [a] carries the time value [t]. *)
Definition at_time (t : Z) (a : AlertRecord) : bool :=
  match Date_parse (created_at a) with
  | Some x => (x =? t)%Z
  | None => false
  end.

(** The time value of a record whose timestamp is a date. *)
Definition time_of (a : AlertRecord) : Z :=
  match Date_parse (created_at a) with
  | Some x => x
  | None => 0%Z
  end.

(** The timestamp of [a] is a date. *)
Definition dated (a : AlertRecord) : Prop :=
  Date_parse (created_at a) <> None.

End Timestamps.

(** The number of elements of [l] that pass [test]. *)
Fixpoint count_if (A : Type) (test : A -> bool) (l : list A) : nat :=
  match l with
  | [] => 0
  | x :: l' => (if test x then 1 else 0) + count_if test l'
  end.

(** The formatted metric name of a record, as the property name it is
    counted under. *)
Definition formatted (a : AlertRecord) : string :=
  ToString (formatMetricName (metric a)).

(** The distinct elements of a list, each at its first appearance. *)
Fixpoint first_appearance (l : list string) : list string :=
  match l with
  | [] => []
  | x :: l' =>
      x :: filter (fun y => negb (String.eqb y x)) (first_appearance l')
  end.

(** How often [k] occurs in [l]. *)
Definition occurrences (l : list string) (k : string) : nat :=
  count_occ string_dec l k.

(** One step of the counting loop, on the property name. *)
Definition count_key (o : Obj.t) (k : string) : Obj.t :=
  Obj.set o k (plus_one (js_or (Obj.get o k) (Prim (Num 0)))).

(** The object the loop has built after the names [seen]. *)
Definition tally (seen : list string) : Obj.t :=
  map (fun k => (k, Num (Z.of_nat (occurrences seen k))))
    (first_appearance seen).

(** Ascending numeric order of array indices. *)
Definition index_le (k k' : string) : Prop :=
  (Obj.index_of k <= Obj.index_of k')%N.

(** The statement [m] keeps the property [I] of the page, whether it
    completes normally or throws. *)
Definition Preserves (I : Page -> Prop) (A : Type) (m : M A) : Prop :=
  forall p, I p -> I (snd (m p)).

(** A response with a success status and the parsed body [r]. *)
Definition success (r : Result) : Outcome :=
  Responded {| ok := true; payload := Parsed r |}.

(** The request ends in one of the three failures: the transport fails,
    the status is not a success, or the body does not parse. *)
Definition failing (net : Outcome) : bool :=
  match net with
  | Rejected _ => true
  | Responded r =>
      negb (ok r)
      || match payload r with Unparseable _ => true | Parsed _ => false end
  end.

(** The message of the error thrown then; [status] is the text the
    operation throws on a status that is not a success. *)
Definition failure_text (status : string) (net : Outcome) : string :=
  match net with
  | Rejected why => why
  | Responded r =>
      if negb (ok r) then status
      else match payload r with
           | Unparseable why => why
           | Parsed _ => EmptyString
           end
  end.

(** The store and everything derived from it are in [q] as in [p]. *)
Definition snapshot_kept (p q : Page) : Prop :=
  alertsData q = alertsData p
  /\ alerts_table_body q = alerts_table_body p
  /\ cards q = cards p
  /\ cpuTrendChart q = cpuTrendChart p
  /\ alertTypeChart q = alertTypeChart p
  /\ chart_log q = chart_log p.

(** A query field: left out when its text is empty. *)
Definition present (name text : string) : URLSearchParams.t :=
  if Str.is_empty text then [] else [(name, text)].

(** The query the claim describes: each non-empty field, trimmed. *)
Definition present_trimmed (f : SearchForm) : URLSearchParams.t :=
  let field name text :=
    if Str.is_empty text then [] else [(name, Str.trim text)] in
  field "hostname" (search_hostname f)
  ++ field "start_time" (search_start_time f)
  ++ field "end_time" (search_end_time f).

(** At every moment of the log, a canvas holds at most one chart. *)
Definition never_two (log : list ChartEvent) : Prop :=
  forall canvas pre suf,
    log = pre ++ suf -> List.length (live canvas pre) <= 1.

(** The slots and the log agree: what is alive on each of the two
    canvases is what its slot holds, nothing is alive elsewhere, the
    charts of the slots are older than the log is long and differ, and no
    canvas ever held two charts. *)
Record slots_ok (p : Page) : Prop := {
  cpu_live : live cpu_canvas (chart_log p) = option_list (cpuTrendChart p);
  type_live : live type_canvas (chart_log p) = option_list (alertTypeChart p);
  none_elsewhere :
    forall canvas, canvas <> cpu_canvas -> canvas <> type_canvas ->
                   live canvas (chart_log p) = [];
  cpu_known :
    forall c, cpuTrendChart p = Some c ->
              chart_id c < List.length (chart_log p);
  type_known :
    forall c, alertTypeChart p = Some c ->
              chart_id c < List.length (chart_log p);
  slots_differ :
    forall c d, cpuTrendChart p = Some c -> alertTypeChart p = Some d ->
                chart_id c <> chart_id d;
  log_never_two : never_two (chart_log p)
}.

(** What a repaint does: the chart of the slot, if any, is destroyed,
    then the new chart is created and put in the slot. *)
Definition replaced (old : option Chart) (log : list ChartEvent)
    (canvas type : string) (series : Series) (palette : list string)
  : Chart * list ChartEvent :=
  let log1 := log ++ map Destroyed (option_list old) in
  let c := {| chart_id := List.length log1; chart_canvas := canvas;
              chart_type := type; chart_series := series;
              chart_colors := palette |} in
  (c, log1 ++ [Created c]).

(** ** Views of a collection *)

(** The rows the table shows for a collection. *)
Definition table_rows (l : list AlertRecord) : list string :=
  match l with
  | [] => [placeholder_row]
  | _ :: _ => map row_html l
  end.

(** The texts the cards show for a collection. *)
Definition cards_of (l : list AlertRecord) : Cards :=
  {| total_alerts := Str.of_nat (List.length l);
     error_hosts := Str.of_nat (errorHostCount l);
     normal_count := Str.of_nat (normalCount (coreMetrics l));
     system_status := systemStatus (coreMetrics l);
     system_status_class :=
       if (0 <? errorHostCount l)%nat
       then "card-text display-4 text-warning"
       else "card-text display-4 text-success" |}.

(** Table, cards and both charts show the collection [l]. *)
Definition shows (Date_parse : string -> option Z) (l : list AlertRecord)
    (p : Page) : Prop :=
  alerts_table_body p = table_rows l
  /\ cards p = cards_of l
  /\ option_map chart_series (cpuTrendChart p)
     = Some (cpuData (processChartData Date_parse l))
  /\ option_map chart_series (alertTypeChart p)
     = Some (alertTypeData (processChartData Date_parse l)).

(** Nothing has been rendered yet: the page is as the script found it. *)
Definition pristine (p : Page) : Prop :=
  alertsData p = Array []
  /\ alerts_table_body p = []
  /\ cpuTrendChart p = None /\ alertTypeChart p = None
  /\ chart_log p = [].

(** The events a user can cause: the four entry points and form edits. *)
Definition user_event (a : Action) : bool :=
  match a with
  | RepaintCpu _ | RepaintTypes _ => false
  | _ => true
  end.

(** The page after both charts have been repainted for the collection
    [l]: each slot's chart replaced, the CPU trend first. *)
Definition repainted (Date_parse : string -> option Z)
    (l : list AlertRecord) (p : Page) : Page :=
  let chartData := processChartData Date_parse l in
  let r1 := replaced (cpuTrendChart p) (chart_log p) cpu_canvas "line"
              (cpuData chartData) ["#0d6efd"] in
  let r2 := replaced (alertTypeChart p) (snd r1) type_canvas "doughnut"
              (alertTypeData chartData)
              (firstn (List.length (labels (alertTypeData chartData)))
                 colors) in
  with_alertTypeChart (Some (fst r2))
    (with_chart_log (snd r2) (with_cpuTrendChart (Some (fst r1)) p)).

(** The page after the three renderers have run for the collection [l]. *)
Definition rendered (Date_parse : string -> option Z)
    (l : list AlertRecord) (p : Page) : Page :=
  repainted Date_parse l (with_cards (cards_of l)
                            (with_table_body (table_rows l) p)).

(** The fields no renderer writes. *)
Definition same_surroundings (p q : Page) : Prop :=
  search_form q = search_form p
  /\ search_form_default q = search_form_default p
  /\ alert_form q = alert_form p
  /\ alert_form_default q = alert_form_default p
  /\ dialogs q = dialogs p
  /\ console q = console p
  /\ requests q = requests p.

(** The collection a successful response installs. *)
Definition installed_list (r : Result) : list AlertRecord :=
  match result_alerts r with
  | Array l => l
  | AUndefined | ANull => []
  end.

(** The request of a load. *)
Definition fetch_all_request : Request :=
  {| url := "/alerts/"; method := "GET"; content_type := EmptyString;
     body := EmptyString |}.

(** The store holds a collection, and the views either show it or have
    never been rendered. *)
Definition views_follow_store (Date_parse : string -> option Z) (p : Page)
  : Prop :=
  exists l, alertsData p = Array l
            /\ (pristine p \/ shows Date_parse l p).

(** ** What an action does around the views *)

(** The requests an action issues on the page [p]. *)
Definition requests_of (p : Page) (a : Action) : list Request :=
  match a with
  | DoRefresh _ | DoResetSearch _ => [fetch_all_request]
  | DoSearch _ => [search_request (search_form p)]
  | DoSubmit post _ =>
      submit_request (alert_form p)
      :: (if failing post then [] else [fetch_all_request])
  | EditSearch _ | EditAlert _ | RepaintCpu _ | RepaintTypes _ => []
  end.

(** The dialog of a load that ends in [net]: none when it succeeds. *)
Definition refresh_dialogs (net : Outcome) : list string :=
  if failing net
  then [("刷新数据失败：" ^ failure_text "接口请求失败" net)%string]
  else [].

(** The number of records a response installs. *)
Definition found (net : Outcome) : nat :=
  match net with
  | Responded r =>
      match payload r with
      | Parsed result => List.length (installed_list result)
      | Unparseable _ => 0
      end
  | Rejected _ => 0
  end.

(** The confirmation text of a response to a submission. *)
Definition confirmation (net : Outcome) : string :=
  match net with
  | Responded r =>
      match payload r with
      | Parsed result => ToString (Prim (result_message result))
      | Unparseable _ => EmptyString
      end
  | Rejected _ => EmptyString
  end.

(** The dialogs an action shows. *)
Definition dialogs_of (a : Action) : list string :=
  match a with
  | DoRefresh net | DoResetSearch net => refresh_dialogs net
  | DoSearch net =>
      if failing net
      then [("搜索告警失败：" ^ failure_text "搜索失败" net)%string]
      else [("搜索完成，共找到 " ^ Str.of_nat (found net)
             ^ " 条记录")%string]
  | DoSubmit post get =>
      if failing post
      then [("提交告警失败：" ^ failure_text "提交失败" post)%string]
      else confirmation post :: refresh_dialogs get
  | EditSearch _ | EditAlert _ | RepaintCpu _ | RepaintTypes _ => []
  end.

(** The search form after an action. *)
Definition search_form_after (p : Page) (a : Action) : SearchForm :=
  match a with
  | DoResetSearch _ => search_form_default p
  | EditSearch f => f
  | _ => search_form p
  end.

(** The alert form after an action. *)
Definition alert_form_after (p : Page) (a : Action) : AlertForm :=
  match a with
  | DoSubmit post _ =>
      if failing post then alert_form p else alert_form_default p
  | EditAlert f => f
  | _ => alert_form p
  end.

(** The effects of an action outside the store and the views. *)
Definition effects (p : Page) (a : Action) (q : Page) : Prop :=
  requests q = requests p ++ requests_of p a
  /\ dialogs q = dialogs p ++ dialogs_of a
  /\ search_form q = search_form_after p a
  /\ alert_form q = alert_form_after p a
  /\ search_form_default q = search_form_default p
  /\ alert_form_default q = alert_form_default p.

(** ** Text *)

(** How often the character [c] occurs in [s]. *)
Fixpoint count_char (c : ascii) (s : string) : nat :=
  match s with
  | EmptyString => 0
  | String x s' => (if Ascii.eqb x c then 1 else 0) + count_char c s'
  end.

(** The characters that delimit a URL query, and the space. *)
Definition delimiters : list ascii :=
  [ "&"%char; "="%char; "?"%char; "#"%char; " "%char ].

(** The names a search may send, in the order it appends them. *)
Definition search_names : list string :=
  [ "hostname"; "start_time"; "end_time" ].

(** A text made of white space only: white-space characters, one after
    the other. *)
Definition blank (parts : list string) : string :=
  fold_right String.append EmptyString parts.

(** The labels of the five metrics of the table. *)
Definition known_labels : list string :=
  [ "CPU使用率"; "内存使用率"; "磁盘使用率"; "入站流量"; "出站流量" ].

(** The badge of an anomalous record. *)
Definition warning_badge : string :=
  "<span class=" ^ dq ^ "badge bg-warning" ^ dq ^ ">警告</span>".

(** ** Numbers in text *)

(** The value of a run of decimal digits read after [acc]. *)
Fixpoint uint_value (d : Decimal.uint) (acc : Z) : Z :=
  match d with
  | Decimal.Nil => acc
  | Decimal.D0 l => uint_value l (acc * 10 + 0)
  | Decimal.D1 l => uint_value l (acc * 10 + 1)
  | Decimal.D2 l => uint_value l (acc * 10 + 2)
  | Decimal.D3 l => uint_value l (acc * 10 + 3)
  | Decimal.D4 l => uint_value l (acc * 10 + 4)
  | Decimal.D5 l => uint_value l (acc * 10 + 5)
  | Decimal.D6 l => uint_value l (acc * 10 + 6)
  | Decimal.D7 l => uint_value l (acc * 10 + 7)
  | Decimal.D8 l => uint_value l (acc * 10 + 8)
  | Decimal.D9 l => uint_value l (acc * 10 + 9)
  end.

(** The text after a number does not go on with a digit, nor with the
    [x] that would turn a leading zero into a hexadecimal prefix. *)
Definition stops (rest : string) : bool :=
  match rest with
  | EmptyString => true
  | String c _ =>
      match ParseInt.digit_value 10 c with
      | Some _ => false
      | None => negb (Ascii.eqb c "x") && negb (Ascii.eqb c "X")
      end
  end.

(** The message a submission sends: the trimmed text, or the label of
    the metric followed by 异常 when the text is blank. *)
Definition submit_message (f : AlertForm) : string :=
  if Str.is_empty (Str.trim (form_message f))
  then (ToString (formatMetricName (form_metric f)) ^ "异常")%string
  else Str.trim (form_message f).

(** * Properties *)

(** ** Membership and the Set model *)

Lemma mem_In (k : string) (l : list string) : mem k l = true <-> In k l.
Proof.
  induction l as [|x l IH]; simpl.
  - split; [discriminate | tauto].
  - rewrite orb_true_iff, String.eqb_eq, IH. split; intros [H|H]; auto.
Qed.

Lemma mem_false (k : string) (l : list string) : mem k l = false <-> ~ In k l.
Proof.
  rewrite <- mem_In. destruct (mem k l); split; congruence.
Qed.

Lemma JSSet_add_In (s : JSSet.t) (x h : string) :
  In h (JSSet.add s x) <-> In h s \/ h = x.
Proof.
  unfold JSSet.add. destruct (mem x s) eqn:E.
  - apply mem_In in E. split; [tauto | intros [H|H]; subst; auto].
  - rewrite in_app_iff. simpl. split; intros [H|H]; auto.
    + destruct H as [H|[]]; auto.
Qed.

Lemma JSSet_add_NoDup (s : JSSet.t) (x : string) :
  NoDup s -> NoDup (JSSet.add s x).
Proof.
  intros H. unfold JSSet.add. destruct (mem x s) eqn:E; trivial.
  apply mem_false in E.
  apply NoDup_rev in H. rewrite <- (rev_involutive (s ++ [x])).
  apply NoDup_rev. rewrite rev_app_distr. simpl. constructor; trivial.
  now rewrite <- in_rev.
Qed.

Lemma JSSet_fold_In (l : list string) (acc : JSSet.t) (h : string) :
  In h (fold_left JSSet.add l acc) <-> In h acc \/ In h l.
Proof.
  revert acc. induction l as [|x l IH]; intros acc; simpl.
  - tauto.
  - rewrite IH, JSSet_add_In. split; intros H; intuition auto.
Qed.

Lemma JSSet_fold_NoDup (l : list string) (acc : JSSet.t) :
  NoDup acc -> NoDup (fold_left JSSet.add l acc).
Proof.
  revert acc. induction l as [|x l IH]; intros acc H; simpl; trivial.
  apply IH. now apply JSSet_add_NoDup.
Qed.

Lemma JSSet_of_list_In (l : list string) (h : string) :
  In h (JSSet.of_list l) <-> In h l.
Proof.
  unfold JSSet.of_list. rewrite JSSet_fold_In. simpl. tauto.
Qed.

Lemma JSSet_of_list_NoDup (l : list string) : NoDup (JSSet.of_list l).
Proof. apply JSSet_fold_NoDup. constructor. Qed.

(** ** Summary metrics *)

Lemma length_filter_count (A : Type) (test : A -> bool) (l : list A) :
  List.length (filter test l) = count_if test l.
Proof.
  induction l as [|x l IH]; simpl; trivial.
  destruct (test x); simpl; now rewrite IH.
Qed.

(** C1: for every collection the aggregation yields [total] = its size,
    an error-host list without repetition holding exactly the hostnames
    that have a record with [value > 80] (so its length, the error host
    count, is the number of distinct such hostnames), [normalCount] = the
    number of records with [value <= 80], and the status WARNING exactly
    when the error host count is positive, NORMAL otherwise; the cards
    written by [updateCoreMetrics] show these numbers; the empty
    collection gives 0, 0, 0 and NORMAL. *)
Theorem updateCoreMetrics_aggregates (C : list AlertRecord) :
  let m := coreMetrics C in
  total m = List.length C
  /\ NoDup (errorHosts m)
  /\ (forall h, In h (errorHosts m) <->
               exists a, In a C /\ hostname a = h /\ (value a > 80)%Z)
  /\ normalCount m = count_if (fun a => (value a <=? 80)%Z) C
  /\ (systemStatus m = "警告" <-> 0 < errorHostCount C)
  /\ (systemStatus m = "正常" <-> errorHostCount C = 0)
  /\ (forall p,
        cards (state_after updateCoreMetrics (with_alertsData (Array C) p))
        = {| total_alerts := Str.of_nat (List.length C);
             error_hosts := Str.of_nat (errorHostCount C);
             normal_count := Str.of_nat (normalCount m);
             system_status := systemStatus m;
             system_status_class :=
               if (0 <? errorHostCount C)%nat
               then "card-text display-4 text-warning"
               else "card-text display-4 text-success" |})
  /\ coreMetrics [] = {| total := 0; errorHosts := []; normalCount := 0;
                         systemStatus := "正常" |}.
Proof.
  cbv zeta. repeat split.
  - apply JSSet_of_list_NoDup.
  - simpl. unfold JSSet.spread. rewrite JSSet_of_list_In, in_map_iff.
    intros (a & Hh & Ha). apply filter_In in Ha. destruct Ha as [Ha Hv].
    exists a. repeat split; trivial. apply Z.ltb_lt in Hv. lia.
  - simpl. unfold JSSet.spread. rewrite JSSet_of_list_In, in_map_iff.
    intros (a & Ha & Hh & Hv). exists a. split; trivial.
    apply filter_In. split; trivial. apply Z.ltb_lt. lia.
  - simpl. apply length_filter_count.
  - unfold errorHostCount. simpl.
    destruct (0 <? _)%nat eqn:E; [intros _; now apply Nat.ltb_lt in E|].
    discriminate.
  - unfold errorHostCount. simpl. intros H.
    destruct (0 <? _)%nat eqn:E; trivial. apply Nat.ltb_ge in E. lia.
  - unfold errorHostCount. simpl.
    destruct (0 <? _)%nat eqn:E; [discriminate|].
    intros _. apply Nat.ltb_ge in E. lia.
  - unfold errorHostCount. simpl. intros H.
    destruct (0 <? _)%nat eqn:E; trivial. apply Nat.ltb_lt in E. lia.
  - intros p. unfold errorHostCount. simpl.
    destruct (0 <? _)%nat; reflexivity.
Qed.

(** The scenario of the specification: two records, one anomalous. *)
Example coreMetrics_scenario :
  coreMetrics [ mkAlert "2024-01-01 10:00:00" "h1" "cpu_usage" 90;
                mkAlert "2024-01-01 10:00:01" "h2" "mem_usage" 50 ]
  = {| total := 2; errorHosts := ["h1"]; normalCount := 1;
       systemStatus := "警告" |}.
Proof. reflexivity. Qed.

(** ** formatMetricName *)

Example format_cpu : formatMetricName "cpu_usage" = Prim (Text "CPU使用率").
Proof. reflexivity. Qed.

Example format_unknown : formatMetricName "unknown_x" = Prim (Text "unknown_x").
Proof. reflexivity. Qed.

(** The five names of the table map to their labels. *)
Lemma formatMetricName_table :
  map formatMetricName
    ["cpu_usage"; "mem_usage"; "disk_usage"; "network_in"; "network_out"]
  = map (fun s => Prim (Text s))
      ["CPU使用率"; "内存使用率"; "磁盘使用率"; "入站流量"; "出站流量"].
Proof. reflexivity. Qed.

(** A name that is neither in the table nor inherited passes through. *)
Lemma formatMetricName_passthrough (metric : string) :
  Obj.own metric_map metric = None ->
  mem metric Object_prototype = false ->
  formatMetricName metric = Prim (Text metric).
Proof.
  intros H1 H2. unfold formatMetricName, Obj.get. rewrite H1, H2.
  unfold js_or. simpl. reflexivity.
Qed.

Lemma own_Some_In (o : Obj.t) (k : string) (v : prim) :
  Obj.own o k = Some v -> In k (map fst o).
Proof.
  induction o as [|[k' v'] o IH]; simpl; [discriminate|].
  destruct (String.eqb k k') eqn:E.
  - apply String.eqb_eq in E. auto.
  - auto.
Qed.

(** No name of the table is a name of [Object.prototype]. *)
Lemma table_not_inherited (k : string) :
  In k (map fst metric_map) -> mem k Object_prototype = false.
Proof.
  simpl. intros H.
  repeat (destruct H as [H|H]; [subst k; reflexivity|]).
  destruct H.
Qed.

(** A name inherited from [Object.prototype] comes back as the inherited
    object. *)
Lemma formatMetricName_inherited (metric : string) :
  mem metric Object_prototype = true ->
  formatMetricName metric = Inherited metric.
Proof.
  intros H. unfold formatMetricName, Obj.get.
  destruct (Obj.own metric_map metric) eqn:E.
  - apply own_Some_In, table_not_inherited in E. congruence.
  - rewrite H. reflexivity.
Qed.

(** C7, at the failing input: the identifier ["constructor"] is not in the
    table, yet [formatMetricName] does not return it unchanged; it returns
    the constructor inherited from [Object.prototype], which is no string
    (as text it reads [function Object() { [native code] }]). *)
Theorem formatMetricName_constructor :
  Obj.own metric_map "constructor" = None
  /\ formatMetricName "constructor" = Inherited "constructor"
  /\ formatMetricName "constructor" <> Prim (Text "constructor")
  /\ ToString (formatMetricName "constructor")
     = "function Object() { [native code] }".
Proof. repeat split; try reflexivity. discriminate. Qed.

(** ** The CPU trend *)

Lemma skipn_StronglySorted (A : Type) (R : A -> A -> Prop) (n : nat)
    (l : list A) :
  StronglySorted R l -> StronglySorted R (skipn n l).
Proof.
  revert l. induction n as [|n IH]; intros l H; simpl; trivial.
  destruct l as [|x l]; trivial.
  apply IH. now inversion H.
Qed.

Lemma slice_last_suffix (A : Type) (n : nat) (l : list A) :
  l = firstn (List.length l - n) l ++ Arr.slice_last n l.
Proof. unfold Arr.slice_last. now rewrite firstn_skipn. Qed.

Lemma slice_last_length (A : Type) (n : nat) (l : list A) :
  List.length (Arr.slice_last n l) = Nat.min n (List.length l).
Proof. unfold Arr.slice_last. rewrite length_skipn. lia. Qed.

Section SortFacts.

Variable A : Type.
Variable comparefn : A -> A -> option Z.

Lemma insert_Permutation (x : A) (l : list A) :
  Permutation (Arr.insert comparefn x l) (x :: l).
Proof.
  induction l as [|y l IH]; simpl; trivial.
  destruct (0 <? _)%Z; trivial.
  rewrite IH. apply perm_swap.
Qed.

Lemma sort_Permutation (l : list A) :
  Permutation (Arr.sort comparefn l) l.
Proof.
  induction l as [|x l IH]; simpl; trivial.
  unfold Arr.sort in *. simpl.
  rewrite insert_Permutation. now constructor.
Qed.

(** The comparator is the difference of a numeric key on the elements
    that pass [good]. *)
Variable key : A -> Z.
Variable good : A -> Prop.
Hypothesis comparefn_key :
  forall x y, good x -> good y -> comparefn x y = Some (key x - key y)%Z.

Let key_le (x y : A) : Prop := (key x <= key y)%Z.

Lemma insert_sorted (x : A) (l : list A) :
  good x -> Forall good l ->
  StronglySorted key_le l -> StronglySorted key_le (Arr.insert comparefn x l).
Proof.
  intros Hx. induction l as [|y l IH]; intros Hl Hs; simpl.
  - repeat constructor.
  - inversion Hl as [|? ? Hy Hl']; subst.
    inversion Hs as [|? ? Hs' Hall]; subst.
    unfold Arr.SortCompare. rewrite (comparefn_key Hx Hy).
    destruct (0 <? key x - key y)%Z eqn:E.
    + apply Z.ltb_lt in E. constructor; [now apply IH|].
      apply (Permutation_Forall (x := x :: l)).
      * symmetry. apply insert_Permutation.
      * constructor; trivial. unfold key_le. lia.
    + apply Z.ltb_ge in E. constructor; trivial.
      constructor; [unfold key_le; lia|].
      eapply Forall_impl; [|exact Hall].
      unfold key_le. intros z Hz. lia.
Qed.

Lemma sort_sorted (l : list A) :
  Forall good l -> StronglySorted key_le (Arr.sort comparefn l).
Proof.
  induction l as [|x l IH]; intros H; simpl; [constructor|].
  inversion H; subst. unfold Arr.sort in *. simpl.
  apply insert_sorted; auto.
  apply (Permutation_Forall (x := l)); trivial.
  symmetry. apply sort_Permutation.
Qed.

(** Stability: among the elements of one key, insertion puts the new
    element first and leaves the others as they were. *)
Lemma insert_filter_key (t : Z) (x : A) (l : list A) :
  good x -> Forall good l ->
  filter (fun a => (key a =? t)%Z) (Arr.insert comparefn x l)
  = filter (fun a => (key a =? t)%Z) (x :: l).
Proof.
  intros Hx. induction l as [|y l IH]; intros Hl; trivial.
  inversion Hl as [|? ? Hy Hl']; subst. simpl.
  unfold Arr.SortCompare. rewrite (comparefn_key Hx Hy).
  destruct (0 <? key x - key y)%Z eqn:E; trivial.
  apply Z.ltb_lt in E. simpl. rewrite (IH Hl'). simpl.
  destruct (key x =? t)%Z eqn:Ex, (key y =? t)%Z eqn:Ey; trivial.
  apply Z.eqb_eq in Ex, Ey. lia.
Qed.

Lemma sort_filter_key (t : Z) (l : list A) :
  Forall good l ->
  filter (fun a => (key a =? t)%Z) (Arr.sort comparefn l)
  = filter (fun a => (key a =? t)%Z) l.
Proof.
  induction l as [|x l IH]; intros H; trivial.
  inversion H; subst. unfold Arr.sort in *. simpl fold_right.
  rewrite insert_filter_key; trivial.
  - simpl. now rewrite IH.
  - apply (Permutation_Forall (x := l)); trivial.
    symmetry. apply sort_Permutation.
Qed.

End SortFacts.

Lemma StronglySorted_weaken (A : Type) (R R' : A -> A -> Prop)
    (good : A -> Prop) (l : list A) :
  (forall x y, good x -> good y -> R x y -> R' x y) ->
  Forall good l -> StronglySorted R l -> StronglySorted R' l.
Proof.
  intros HR. induction l as [|x l IH]; intros Hg Hs; [constructor|].
  inversion Hg as [|? ? Hx Hl]; subst.
  inversion Hs as [|? ? Hs' Hall]; subst.
  constructor; [auto|].
  rewrite Forall_forall in *. intros y Hy. auto.
Qed.

Section Trend.

Variable Date_parse : string -> option Z.

Lemma by_created_at_key (x y : AlertRecord) :
  dated Date_parse x -> dated Date_parse y ->
  by_created_at Date_parse x y
  = Some (time_of Date_parse x - time_of Date_parse y)%Z.
Proof.
  unfold dated, by_created_at, time_of. intros Hx Hy.
  destruct (Date_parse (created_at x)); [|congruence].
  destruct (Date_parse (created_at y)); [|congruence].
  reflexivity.
Qed.

Lemma key_le_time_le (x y : AlertRecord) :
  dated Date_parse x -> dated Date_parse y ->
  (time_of Date_parse x <= time_of Date_parse y)%Z ->
  time_le Date_parse x y.
Proof.
  unfold dated, time_of, time_le. intros Hx Hy.
  destruct (Date_parse (created_at x)) as [tx|]; [|congruence].
  destruct (Date_parse (created_at y)) as [ty|]; [|congruence].
  intros H. now exists tx, ty.
Qed.

Lemma at_time_key (t : Z) (a : AlertRecord) :
  dated Date_parse a ->
  at_time Date_parse t a = (time_of Date_parse a =? t)%Z.
Proof.
  unfold dated, at_time, time_of.
  destruct (Date_parse (created_at a)); congruence.
Qed.

Lemma filter_at_time (t : Z) (l : list AlertRecord) :
  Forall (dated Date_parse) l ->
  filter (at_time Date_parse t) l
  = filter (fun a => (time_of Date_parse a =? t)%Z) l.
Proof.
  intros H. apply filter_ext_in. rewrite Forall_forall in H.
  intros a Ha. apply at_time_key. auto.
Qed.

(** C2: for every collection whose CPU records carry timestamps that
    are dates, the CPU trend keeps exactly the records with metric
    [cpu_usage], sorts them ascending by time with the records of one
    timestamp left in their original relative order, and keeps the last
    ten of them: its length is [min 10] of the number of CPU records,
    its records are in non-decreasing order of time, and the values of
    the series are those of the kept records in that order. *)
Theorem cpu_trend_sorted_last_ten (C : list AlertRecord)
    (Hdated : forall a, In a C -> metric a = "cpu_usage" ->
                        dated Date_parse a) :
  let cpu := filter is_cpu C in
  let sorted := Arr.sort (by_created_at Date_parse) cpu in
  (forall a, In a cpu <-> In a C /\ metric a = "cpu_usage")
  /\ Permutation sorted cpu
  /\ StronglySorted (time_le Date_parse) sorted
  /\ (forall t, filter (at_time Date_parse t) sorted
                = filter (at_time Date_parse t) cpu)
  /\ (exists older, sorted = older ++ cpuAlerts Date_parse C)
  /\ List.length (cpuAlerts Date_parse C) = Nat.min 10 (List.length cpu)
  /\ StronglySorted (time_le Date_parse) (cpuAlerts Date_parse C)
  /\ values (cpuData (processChartData Date_parse C))
     = map (fun a => Num (value a)) (cpuAlerts Date_parse C)
  /\ List.length (labels (cpuData (processChartData Date_parse C)))
     = List.length (cpuAlerts Date_parse C).
Proof.
  intros cpu sorted.
  assert (Hin : forall a, In a cpu <-> In a C /\ metric a = "cpu_usage").
  { intros a. unfold cpu, is_cpu. rewrite filter_In.
    now rewrite String.eqb_eq. }
  assert (Hcpu : Forall (dated Date_parse) cpu).
  { apply Forall_forall. intros a Ha. apply Hin in Ha. now apply Hdated. }
  assert (Hperm : Permutation sorted cpu) by apply sort_Permutation.
  assert (Hsorted_dated : Forall (dated Date_parse) sorted).
  { apply (Permutation_Forall (x := cpu)); trivial. now symmetry. }
  assert (Hsorted : StronglySorted (time_le Date_parse) sorted).
  { apply (@StronglySorted_weaken _
             (fun x y => (time_of Date_parse x <= time_of Date_parse y)%Z)
             (time_le Date_parse) (dated Date_parse)); trivial.
    - intros x y. apply key_le_time_le.
    - apply (@sort_sorted _ _ (time_of Date_parse) (dated Date_parse)
               by_created_at_key _ Hcpu). }
  split; [exact Hin|]. split; [exact Hperm|]. split; [exact Hsorted|].
  split.
  { intros t. rewrite !filter_at_time; trivial.
    apply (@sort_filter_key _ _ (time_of Date_parse) (dated Date_parse)
             by_created_at_key t _ Hcpu). }
  split.
  { exists (firstn (List.length sorted - 10) sorted).
    change (cpuAlerts Date_parse C) with (Arr.slice_last 10 sorted).
    apply slice_last_suffix. }
  split.
  { change (cpuAlerts Date_parse C) with (Arr.slice_last 10 sorted).
    rewrite slice_last_length.
    now rewrite (Permutation_length Hperm). }
  split.
  { change (cpuAlerts Date_parse C) with (Arr.slice_last 10 sorted).
    unfold Arr.slice_last. now apply skipn_StronglySorted. }
  split; [reflexivity|].
  simpl. apply length_map.
Qed.

End Trend.

(** ** Chart labels *)

Lemma split_no_separator (c : ascii) (s : string) :
  Str.contains c s = false -> Str.split c s = [s].
Proof.
  induction s as [|x s IH]; simpl; trivial.
  intros H. apply orb_false_iff in H. destruct H as [Hx Hs].
  rewrite Hx, (IH Hs). reflexivity.
Qed.

Lemma split_first_field (c : ascii) (d rest : string) :
  Str.contains c d = false ->
  Str.split c (d ^ String c rest) = d :: Str.split c rest.
Proof.
  induction d as [|x d IH]; simpl.
  - intros _. now rewrite Ascii.eqb_refl.
  - intros H. apply orb_false_iff in H. destruct H as [Hx Hd].
    rewrite Hx, (IH Hd). reflexivity.
Qed.

(** The label of a record: the text between the first space of
    [created_at] and the next one (or the end); [undefined] when there
    is no space. *)
Lemma cpuLabel_one_space (a : AlertRecord) (d t : string) :
  created_at a = (d ^ " " ^ t)%string ->
  Str.contains " " d = false -> Str.contains " " t = false ->
  cpuLabel a = Text t.
Proof.
  intros E Hd Ht. unfold cpuLabel. rewrite E.
  change (d ^ " " ^ t)%string with (d ^ String " " t)%string.
  rewrite (@split_first_field _ _ _ Hd), (@split_no_separator _ _ Ht).
  reflexivity.
Qed.

Lemma cpuLabel_more_spaces (a : AlertRecord) (d t rest : string) :
  created_at a = (d ^ " " ^ t ^ " " ^ rest)%string ->
  Str.contains " " d = false -> Str.contains " " t = false ->
  cpuLabel a = Text t.
Proof.
  intros E Hd Ht. unfold cpuLabel. rewrite E.
  change (d ^ " " ^ t ^ " " ^ rest)%string
    with (d ^ String " " (t ^ String " " rest))%string.
  rewrite (@split_first_field _ _ _ Hd), (@split_first_field _ _ _ Ht).
  reflexivity.
Qed.

Lemma cpuLabel_no_space (a : AlertRecord) :
  Str.contains " " (created_at a) = false -> cpuLabel a = Undefined.
Proof.
  intros H. unfold cpuLabel. now rewrite (@split_no_separator _ _ H).
Qed.

(** C3, as the code has it: the labels of the CPU trend are those of its
    records, in order; the label of a record is the part of [created_at]
    after its first space, up to the next space or the end (for
    [YYYY-MM-DD HH:MM:SS] the time of day); when [created_at] has no
    space nothing fails, and the label is [undefined]. *)
Theorem cpu_labels_second_field (Date_parse : string -> option Z)
    (C : list AlertRecord) :
  labels (cpuData (processChartData Date_parse C))
  = map cpuLabel (cpuAlerts Date_parse C)
  /\ (forall a d t,
        In a (cpuAlerts Date_parse C) ->
        created_at a = (d ^ " " ^ t)%string ->
        Str.contains " " d = false -> Str.contains " " t = false ->
        cpuLabel a = Text t)
  /\ (forall a d t rest,
        In a (cpuAlerts Date_parse C) ->
        created_at a = (d ^ " " ^ t ^ " " ^ rest)%string ->
        Str.contains " " d = false -> Str.contains " " t = false ->
        cpuLabel a = Text t)
  /\ (forall a,
        In a (cpuAlerts Date_parse C) ->
        Str.contains " " (created_at a) = false -> cpuLabel a = Undefined).
Proof.
  split; [reflexivity|]. split; [|split].
  - intros a d t _. apply cpuLabel_one_space.
  - intros a d t rest _. apply cpuLabel_more_spaces.
  - intros a _. apply cpuLabel_no_space.
Qed.

(** C3 as stated fails: a CPU record whose [created_at] has no space (an
    ISO timestamp) gets the label [undefined], not its raw timestamp. *)
Lemma cpu_label_no_fallback :
  let a := mkAlert "2024-01-01T10:00:00" "h1" "cpu_usage" 90 in
  cpuAlerts UTC.parse [a] = [a]
  /\ Str.contains " " (created_at a) = false
  /\ labels (cpuData (processChartData UTC.parse [a])) = [Undefined]
  /\ Undefined <> Text (created_at a).
Proof. cbv zeta. repeat split. discriminate. Qed.

Lemma cpu_labels_second_field_witness :
  let a := mkAlert "2024-01-01 10:00:00" "h1" "cpu_usage" 90 in
  let b := mkAlert "2024-01-01T10:00:00" "h1" "cpu_usage" 90 in
  cpuLabel a = Text "10:00:00" /\ cpuLabel b = Undefined.
Proof.
  cbv zeta. split.
  - apply (proj1 (proj2 (cpu_labels_second_field UTC.parse
             [mkAlert "2024-01-01 10:00:00" "h1" "cpu_usage" 90]))
             _ "2024-01-01" "10:00:00");
      [left; reflexivity | reflexivity | reflexivity | reflexivity].
  - apply (proj2 (proj2 (proj2 (cpu_labels_second_field UTC.parse
             [mkAlert "2024-01-01T10:00:00" "h1" "cpu_usage" 90]))));
      [left; reflexivity | reflexivity].
Defined.

(** ** The alert-type distribution *)

Lemma In_first_appearance (l : list string) (k : string) :
  In k (first_appearance l) <-> In k l.
Proof.
  induction l as [|x l IH]; simpl; [tauto|].
  rewrite filter_In, IH, negb_true_iff, String.eqb_neq.
  destruct (string_dec k x) as [->|N]; [tauto|].
  split; intros [H|H]; auto; try tauto.
Qed.

Lemma NoDup_first_appearance (l : list string) : NoDup (first_appearance l).
Proof.
  induction l as [|x l IH]; simpl; constructor.
  - rewrite filter_In, negb_true_iff, String.eqb_neq. tauto.
  - now apply NoDup_filter.
Qed.

Lemma first_appearance_snoc (l : list string) (k : string) :
  first_appearance (l ++ [k])
  = if mem k l then first_appearance l else first_appearance l ++ [k].
Proof.
  induction l as [|x l IH]; simpl; trivial.
  rewrite IH. destruct (String.eqb k x) eqn:E; simpl.
  - destruct (mem k l); trivial.
    rewrite filter_app. simpl. rewrite E. simpl. now rewrite app_nil_r.
  - destruct (mem k l); trivial.
    rewrite filter_app. simpl. rewrite E. reflexivity.
Qed.

Lemma own_keyed (f : string -> prim) (l : list string) (k : string) :
  Obj.own (map (fun k' => (k', f k')) l) k
  = if mem k l then Some (f k) else None.
Proof.
  induction l as [|x l IH]; simpl; trivial.
  destruct (String.eqb k x) eqn:E; simpl; trivial.
  apply String.eqb_eq in E. now subst.
Qed.

Lemma put_fresh (o : Obj.t) (k : string) (v : prim) :
  mem k (map fst o) = false -> Obj.put o k v = o ++ [(k, v)].
Proof.
  induction o as [|[k' v'] o IH]; simpl; trivial.
  intros H. apply orb_false_iff in H. destruct H as [E H].
  rewrite E, (IH H). reflexivity.
Qed.

Lemma put_update (f : string -> prim) (l : list string) (k : string)
    (v : prim) :
  NoDup l -> In k l ->
  Obj.put (map (fun k' => (k', f k')) l) k v
  = map (fun k' => (k', if String.eqb k' k then v else f k')) l.
Proof.
  induction l as [|x l IH]; simpl; [tauto|].
  intros Hnd Hin. inversion Hnd as [|? ? Hx Hl]; subst.
  destruct (String.eqb k x) eqn:E.
  - apply String.eqb_eq in E. subst x. rewrite String.eqb_refl.
    f_equal. apply map_ext_in. intros k' Hk'.
    destruct (String.eqb k' k) eqn:E'; trivial.
    apply String.eqb_eq in E'. congruence.
  - rewrite String.eqb_sym, E. f_equal. apply IH; trivial.
    destruct Hin as [->|Hin]; trivial.
    rewrite String.eqb_refl in E. discriminate.
Qed.

Lemma occurrences_snoc (seen : list string) (k k' : string) :
  occurrences (seen ++ [k]) k'
  = occurrences seen k' + (if String.eqb k' k then 1 else 0).
Proof.
  unfold occurrences. rewrite count_occ_app. simpl.
  destruct (string_dec k k') as [->|N].
  - now rewrite String.eqb_refl.
  - destruct (String.eqb k' k) eqn:E; trivial.
    apply String.eqb_eq in E. congruence.
Qed.

Lemma occurrences_positive (seen : list string) (k : string) :
  In k seen -> 0 < occurrences seen k.
Proof. intros H. now apply count_occ_In. Qed.

Lemma occurrences_zero (seen : list string) (k : string) :
  ~ In k seen -> occurrences seen k = 0.
Proof. intros H. now apply count_occ_not_In. Qed.

(** On a name that [Object.prototype] does not have, one step of the
    loop counts one more occurrence. *)
Lemma count_key_tally (seen : list string) (k : string) :
  mem k Object_prototype = false ->
  count_key (tally seen) k = tally (seen ++ [k]).
Proof.
  intros Hsafe. unfold count_key, Obj.set, Obj.get, tally.
  assert (Hproto : String.eqb k "__proto__" = false).
  { destruct (String.eqb k "__proto__") eqn:E; trivial.
    apply String.eqb_eq in E. subst k. discriminate. }
  rewrite Hproto, own_keyed, first_appearance_snoc.
  destruct (mem k seen) eqn:Hseen.
  - assert (Hin : In k seen) by now apply mem_In.
    assert (Hfa : mem k (first_appearance seen) = true).
    { apply mem_In. now apply In_first_appearance. }
    rewrite Hfa. unfold js_or. simpl truthy.
    pose proof (occurrences_positive _ _ Hin) as Hpos.
    destruct (Z.eqb_spec (Z.of_nat (occurrences seen k)) 0) as [E|_];
      [lia|].
    simpl. rewrite put_update.
    + apply map_ext. intros k'. rewrite occurrences_snoc.
      destruct (String.eqb k' k) eqn:E.
      * apply String.eqb_eq in E. subst k'. do 2 f_equal. lia.
      * do 2 f_equal. lia.
    + apply NoDup_first_appearance.
    + now apply In_first_appearance.
  - assert (Hnot : ~ In k seen) by now apply mem_false.
    assert (Hfa : mem k (first_appearance seen) = false).
    { apply mem_false. now rewrite In_first_appearance. }
    rewrite Hfa, Hsafe. unfold js_or. simpl.
    rewrite put_fresh.
    + rewrite map_app. simpl. f_equal.
      * apply map_ext_in. intros k' Hk'. rewrite occurrences_snoc.
        destruct (String.eqb k' k) eqn:E.
        -- apply String.eqb_eq in E. subst k'.
           exfalso. apply Hnot. now apply In_first_appearance.
        -- do 2 f_equal. lia.
      * rewrite occurrences_snoc, String.eqb_refl,
          (occurrences_zero _ _ Hnot). reflexivity.
    + rewrite map_map. simpl. now rewrite map_id.
Qed.

Lemma fold_count_key (ks seen : list string) :
  Forall (fun k => mem k Object_prototype = false) ks ->
  fold_left count_key ks (tally seen) = tally (seen ++ ks).
Proof.
  revert seen. induction ks as [|k ks IH]; intros seen H; simpl.
  - now rewrite app_nil_r.
  - inversion H; subst. rewrite count_key_tally; trivial.
    rewrite IH; trivial. now rewrite <- app_assoc.
Qed.

(** The name a record is counted under is never one that
    [Object.prototype] has: such a metric has already been turned into
    the text of the inherited object by [formatMetricName]. *)
Lemma formatted_not_inherited (a : AlertRecord) :
  mem (formatted a) Object_prototype = false.
Proof.
  unfold formatted. generalize (metric a) as m. intros m.
  destruct (Obj.own metric_map m) eqn:E.
  - apply own_Some_In in E. simpl in E.
    repeat (destruct E as [E|E]; [subst m; reflexivity|]).
    destruct E.
  - destruct (mem m Object_prototype) eqn:Hm.
    + rewrite (formatMetricName_inherited _ Hm).
      apply mem_In in Hm. simpl in Hm.
      repeat (destruct Hm as [Hm|Hm]; [subst m; reflexivity|]).
      destruct Hm.
    + rewrite (formatMetricName_passthrough _ E Hm). exact Hm.
Qed.

Lemma metricCount_tally (C : list AlertRecord) :
  metricCount C = tally (map formatted C).
Proof.
  unfold metricCount.
  assert (G : forall o, fold_left count_metric C o
                        = fold_left count_key (map formatted C) o).
  { induction C as [|a C IH]; intros o; simpl; trivial. }
  rewrite G. change (@nil (string * prim)) with (tally []).
  rewrite fold_count_key; trivial.
  apply Forall_forall. intros k Hk. apply in_map_iff in Hk.
  destruct Hk as (a & <- & _). apply formatted_not_inherited.
Qed.

(** Property order *)

Lemma insert_by_index_Permutation (e : string * prim)
    (l : list (string * prim)) :
  Permutation (Obj.insert_by_index e l) (e :: l).
Proof.
  induction l as [|x l IH]; simpl; trivial.
  destruct (_ <? _)%N; trivial.
  rewrite IH. apply perm_swap.
Qed.

Lemma sort_by_index_Permutation (l : list (string * prim)) :
  Permutation (Obj.sort_by_index l) l.
Proof.
  unfold Obj.sort_by_index.
  induction l as [|x l IH]; simpl; trivial.
  rewrite insert_by_index_Permutation. now constructor.
Qed.

Lemma insert_by_index_sorted (e : string * prim) (l : list (string * prim)) :
  StronglySorted (fun a b => index_le (fst a) (fst b)) l ->
  StronglySorted (fun a b => index_le (fst a) (fst b))
    (Obj.insert_by_index e l).
Proof.
  induction l as [|x l IH]; intros Hs; simpl.
  - repeat constructor.
  - inversion Hs as [|? ? Hs' Hall]; subst.
    destruct (_ <? _)%N eqn:E.
    + apply N.ltb_lt in E. constructor; trivial.
      constructor; [unfold index_le; lia|].
      eapply Forall_impl; [|exact Hall].
      unfold index_le. intros z Hz. lia.
    + apply N.ltb_ge in E. constructor; [now apply IH|].
      apply (Permutation_Forall (x := e :: l)).
      * symmetry. apply insert_by_index_Permutation.
      * constructor; trivial.
  Qed.

Lemma sort_by_index_sorted (l : list (string * prim)) :
  StronglySorted (fun a b => index_le (fst a) (fst b)) (Obj.sort_by_index l).
Proof.
  unfold Obj.sort_by_index.
  induction l as [|x l IH]; simpl; [constructor|].
  now apply insert_by_index_sorted.
Qed.

Lemma StronglySorted_map_fst (R : string -> string -> Prop)
    (l : list (string * prim)) :
  StronglySorted (fun a b => R (fst a) (fst b)) l ->
  StronglySorted R (map fst l).
Proof.
  induction 1 as [|x l Hs IH Hall]; simpl; constructor; trivial.
  rewrite Forall_forall in *. intros k Hk. apply in_map_iff in Hk.
  destruct Hk as (e & <- & He). auto.
Qed.

Lemma filter_keyed (f : string -> prim) (test : string -> bool)
    (l : list string) :
  filter (fun e => test (fst e)) (map (fun k => (k, f k)) l)
  = map (fun k => (k, f k)) (filter test l).
Proof.
  induction l as [|x l IH]; simpl; trivial.
  destruct (test x); simpl; now rewrite IH.
Qed.

Lemma map_fst_keyed (f : string -> prim) (l : list string) :
  map fst (map (fun k => (k, f k)) l) = l.
Proof. rewrite map_map. simpl. apply map_id. Qed.

Lemma filter_split_Permutation (A : Type) (test : A -> bool) (l : list A) :
  Permutation (filter test l ++ filter (fun x => negb (test x)) l) l.
Proof.
  induction l as [|x l IH]; simpl; trivial.
  destruct (test x); simpl.
  - now constructor.
  - rewrite <- Permutation_middle. now constructor.
Qed.

Lemma filter_none (A : Type) (test : A -> bool) (l : list A) :
  (forall x, In x l -> test x = false) -> filter test l = [].
Proof.
  induction l as [|x l IH]; simpl; trivial.
  intros H. rewrite (H x (or_introl eq_refl)). apply IH. auto.
Qed.

Lemma filter_all (A : Type) (test : A -> bool) (l : list A) :
  (forall x, In x l -> test x = true) -> filter test l = l.
Proof.
  induction l as [|x l IH]; simpl; trivial.
  intros H. rewrite (H x (or_introl eq_refl)). f_equal. apply IH. auto.
Qed.

(** Counting *)

Lemma list_sum_map_add (A : Type) (f g : A -> nat) (l : list A) :
  list_sum (map (fun x => f x + g x) l)
  = list_sum (map f l) + list_sum (map g l).
Proof. induction l as [|x l IH]; simpl; lia. Qed.

Lemma sum_indicator (x : string) (ks : list string) :
  NoDup ks -> In x ks ->
  list_sum (map (fun k => if string_dec x k then 1 else 0) ks) = 1.
Proof.
  induction ks as [|k ks IH]; simpl; [tauto|].
  intros Hnd Hin. inversion Hnd as [|? ? Hk Hks]; subst.
  destruct (string_dec x k) as [->|N].
  - f_equal. clear IH Hin Hnd Hks.
    induction ks as [|k' ks IH]; simpl; trivial.
    destruct (string_dec k k') as [->|N].
    + exfalso. apply Hk. now left.
    + apply IH. intros H. apply Hk. now right.
  - destruct Hin as [->|Hin]; [congruence|]. now apply IH.
Qed.

Lemma sum_occurrences (names ks : list string) :
  NoDup ks -> (forall k, In k names -> In k ks) ->
  list_sum (map (occurrences names) ks) = List.length names.
Proof.
  intros Hnd. induction names as [|x names IH]; intros Hin.
  - clear Hnd Hin. induction ks as [|k ks IHks]; simpl; trivial.
  - rewrite (map_ext (occurrences (x :: names))
               (fun k => (if string_dec x k then 1 else 0)
                         + occurrences names k)).
    + rewrite list_sum_map_add, sum_indicator; trivial.
      * simpl. rewrite IH; trivial. intros k Hk. apply Hin. now right.
      * apply Hin. now left.
    + intros k. unfold occurrences. simpl.
      destruct (string_dec x k); lia.
Qed.

Lemma entries_values_by_key (f : string -> prim) (l : list string) :
  let o := map (fun k => (k, f k)) l in
  Obj.values o = map f (Obj.keys o).
Proof.
  intros o. unfold Obj.values, Obj.keys. rewrite map_map.
  apply map_ext_in. intros e He.
  assert (Ho : In e o).
  { unfold Obj.entries in He. apply in_app_or in He.
    destruct He as [He|He].
    - apply (Permutation_in _ (sort_by_index_Permutation _)) in He.
      now apply filter_In in He.
    - now apply filter_In in He. }
  unfold o in Ho. apply in_map_iff in Ho. destruct Ho as (k & <- & _).
  reflexivity.
Qed.

(** C4, as the code has it: the labels of the distribution are the
    distinct formatted metric names of the collection, without
    repetition; the names that are array indices (canonical decimal
    numbers) come first, in ascending numeric order, and all other names
    follow in order of first appearance, so that a collection with no
    such name has its labels in order of first appearance; the values
    are the occurrence counts of the labels, in the same order, and they
    add up to the size of the collection. *)
Theorem alert_type_distribution (C : list AlertRecord) :
  let names := map formatted C in
  let labels := alertTypeLabels C in
  NoDup labels
  /\ (forall k, In k labels <-> In k names)
  /\ (exists indices,
        labels = indices
                 ++ filter (fun k => negb (Obj.is_index k))
                      (first_appearance names)
        /\ Permutation indices
             (filter Obj.is_index (first_appearance names))
        /\ StronglySorted index_le indices)
  /\ ((forall k, In k names -> Obj.is_index k = false) ->
      labels = first_appearance names)
  /\ alertTypeValues C
     = map (fun k => Num (Z.of_nat (occurrences names k))) labels
  /\ list_sum (map (occurrences names) labels) = List.length C.
Proof.
  intros names labels.
  set (f := fun k => Num (Z.of_nat (occurrences names k))).
  assert (Ho : metricCount C = map (fun k => (k, f k))
                                 (first_appearance names))
    by apply metricCount_tally.
  set (indices := map fst (Obj.sort_by_index
                    (map (fun k => (k, f k))
                       (filter Obj.is_index (first_appearance names))))).
  assert (Hlabels : labels = indices
            ++ filter (fun k => negb (Obj.is_index k))
                 (first_appearance names)).
  { unfold labels, alertTypeLabels, Obj.keys, Obj.entries. rewrite Ho.
    rewrite map_app.
    rewrite (filter_keyed f Obj.is_index).
    rewrite (filter_keyed f (fun k => negb (Obj.is_index k))).
    now rewrite map_fst_keyed. }
  assert (Hidx : Permutation indices
                   (filter Obj.is_index (first_appearance names))).
  { unfold indices. rewrite sort_by_index_Permutation.
    now rewrite map_fst_keyed. }
  assert (Hperm : Permutation labels (first_appearance names)).
  { rewrite Hlabels, Hidx. apply filter_split_Permutation. }
  assert (Hnd : NoDup labels).
  { apply (Permutation_NoDup (l := first_appearance names)).
    - now symmetry.
    - apply NoDup_first_appearance. }
  assert (Hin : forall k, In k labels <-> In k names).
  { intros k. split; intros H.
    - apply (proj1 (In_first_appearance names k)).
      now apply (Permutation_in _ Hperm).
    - apply (Permutation_in _ (Permutation_sym Hperm)).
      now apply (proj2 (In_first_appearance names k)). }
  split; [exact Hnd|]. split; [exact Hin|]. split.
  { exists indices. split; [exact Hlabels|]. split; [exact Hidx|].
    unfold indices. apply StronglySorted_map_fst, sort_by_index_sorted. }
  split.
  { intros Hnone. rewrite Hlabels. unfold indices.
    rewrite (@filter_none _ Obj.is_index).
    - simpl. apply filter_all. intros k Hk.
      apply (proj1 (In_first_appearance names k)) in Hk.
      now rewrite (Hnone k Hk).
    - intros k Hk. apply (proj1 (In_first_appearance names k)) in Hk.
      auto. }
  split.
  { unfold alertTypeValues, labels, alertTypeLabels. rewrite Ho.
    apply entries_values_by_key. }
  rewrite sum_occurrences; trivial.
  - apply length_map.
  - intros k. apply Hin.
Qed.

(** C4 as stated fails: with the metrics ["b"] then ["1"], the labels are
    ["1"] then ["b"], not the order of first appearance. *)
Lemma alert_type_labels_index_first :
  let C := [ mkAlert "2024-01-01 10:00:00" "h1" "b" 10;
             mkAlert "2024-01-01 10:00:01" "h1" "1" 10 ] in
  map formatted C = ["b"; "1"]
  /\ first_appearance (map formatted C) = ["b"; "1"]
  /\ alertTypeLabels C = ["1"; "b"]
  /\ alertTypeLabels C <> first_appearance (map formatted C).
Proof. cbv zeta. repeat split. discriminate. Qed.

Lemma alert_type_distribution_witness :
  let C := [ mkAlert "2024-01-01 10:00:00" "h1" "cpu_usage" 90;
             mkAlert "2024-01-01 10:00:01" "h2" "mem_usage" 50;
             mkAlert "2024-01-01 10:00:02" "h2" "cpu_usage" 50 ] in
  alertTypeLabels C = first_appearance (map formatted C).
Proof.
  cbv zeta.
  apply (proj1 (proj2 (proj2 (proj2 (alert_type_distribution
           [ mkAlert "2024-01-01 10:00:00" "h1" "cpu_usage" 90;
             mkAlert "2024-01-01 10:00:01" "h2" "mem_usage" 50;
             mkAlert "2024-01-01 10:00:02" "h2" "cpu_usage" 50 ]))))).
  simpl. intros k [<-|[<-|[<-|[]]]]; reflexivity.
Defined.

Lemma cpu_trend_sorted_last_ten_witness :
  let C := [ mkAlert "2024-01-01 10:00:00" "h1" "cpu_usage" 90;
             mkAlert "2024-01-01 10:00:01" "h2" "mem_usage" 50;
             mkAlert "2024-01-01 09:00:00" "h1" "cpu_usage" 85 ] in
  (forall a, In a C -> metric a = "cpu_usage" -> dated UTC.parse a)
  /\ List.length (cpuAlerts UTC.parse C)
     = Nat.min 10 (List.length (filter is_cpu C)).
Proof.
  cbv zeta.
  assert (H : forall a,
             In a [ mkAlert "2024-01-01 10:00:00" "h1" "cpu_usage" 90;
                    mkAlert "2024-01-01 10:00:01" "h2" "mem_usage" 50;
                    mkAlert "2024-01-01 09:00:00" "h1" "cpu_usage" 85 ] ->
             metric a = "cpu_usage" -> dated UTC.parse a).
  { intros a [<-|[<-|[<-|[]]]] _; vm_compute; discriminate. }
  split; [exact H|].
  exact (proj1 (proj2 (proj2 (proj2 (proj2 (proj2
           (@cpu_trend_sorted_last_ten UTC.parse _ H))))))).
Defined.

(** ** Statements that keep a property of the page *)

Section PreservesFacts.

Variable I : Page -> Prop.

Lemma preserves_ret (A : Type) (a : A) : Preserves I (ret a).
Proof. intros p H. exact H. Qed.

Lemma preserves_throw (A : Type) (e : Error) : Preserves I (@throw A e).
Proof. intros p H. exact H. Qed.

Lemma preserves_read (A : Type) (f : Page -> A) : Preserves I (read f).
Proof. intros p H. exact H. Qed.

Lemma preserves_write (f : Page -> Page) :
  (forall p, I p -> I (f p)) -> Preserves I (write f).
Proof. intros Hf p H. simpl. auto. Qed.

Lemma preserves_bind (A B : Type) (m : M A) (k : A -> M B) :
  Preserves I m -> (forall a, Preserves I (k a)) -> Preserves I (bind m k).
Proof.
  intros Hm Hk p H. unfold bind. specialize (Hm p H).
  destruct (m p) as [[a|e] p']; simpl in *; trivial.
  now apply Hk.
Qed.

Lemma preserves_try_catch (A : Type) (m : M A) (handler : Error -> M A) :
  Preserves I m -> (forall e, Preserves I (handler e)) ->
  Preserves I (try_catch m handler).
Proof.
  intros Hm Hh p H. unfold try_catch. specialize (Hm p H).
  destruct (m p) as [[a|e] p']; simpl in *; trivial.
  now apply Hh.
Qed.

Lemma preserves_forEach (A : Type) (l : list A) (f : A -> M unit) :
  (forall x, Preserves I (f x)) -> Preserves I (forEach l f).
Proof.
  intros Hf. induction l as [|x l IH]; simpl.
  - apply preserves_ret.
  - apply preserves_bind; auto.
Qed.

Lemma preserves_new_Chart (canvas type : string) (series : Series)
    (palette : list string) :
  (forall v p, I p -> I (with_chart_log v p)) ->
  Preserves I (new_Chart canvas type series palette).
Proof. intros Hf p H. simpl. auto. Qed.

End PreservesFacts.

(** Statements are taken apart down to the writes; a write is left to
    [auto], a statement with a known fact to the hints. *)
Create HintDb preserves.

Ltac preserve_step :=
  first
    [ solve [auto with preserves]
    | progress unfold perform
    | apply preserves_ret
    | apply preserves_throw
    | apply preserves_read
    | apply preserves_bind; [|intro]
    | apply preserves_try_catch; [|intro]
    | apply preserves_forEach; intro
    | apply preserves_write; intros; cbv beta;
      first [solve [auto] | simpl; solve [auto]]
    | apply preserves_new_Chart; intros; cbv beta;
      first [solve [auto] | simpl; solve [auto]]
    | match goal with
      | |- Preserves _ (match ?x with _ => _ end) => destruct x
      end
    | progress cbv zeta
    | progress unfold refreshAlerts, searchAlerts, resetSearch, submitAlert,
        renderCharts, renderAlertsTable, updateCoreMetrics, alertsData_for,
        fetch, json, window_alert, console_error
    | progress unfold renderCpuTrendChart, renderAlertTypeChart, destroy ].

Ltac preserve := repeat preserve_step.

(** Nothing but the two assignments of the handlers writes [alertsData];
    in particular no renderer does. *)
Lemma renderers_keep_alertsData (Date_parse : string -> option Z)
    (v : maybe_array) :
  Preserves (fun q => alertsData q = v)
    (renderAlertsTable ;; updateCoreMetrics ;; renderCharts Date_parse).
Proof. preserve. Qed.

Lemma try_bind_normal (A B : Type) (m : M A) (k : A -> M B)
    (h : Error -> M B) (p p' : Page) (a : A) :
  m p = (Normal a, p') -> try_catch (bind m k) h p = try_catch (k a) h p'.
Proof. intros E. unfold try_catch, bind. now rewrite E. Qed.

(** ** Installing a response *)

(** A successful refresh: the request is logged, the store assigned, and
    the renderers run under the handler. *)
Lemma refreshAlerts_success (Date_parse : string -> option Z) (r : Result)
    (p : Page) :
  refreshAlerts Date_parse (success r) p
  = try_catch
      (renderAlertsTable ;; updateCoreMetrics ;; renderCharts Date_parse)
      (fun error =>
         window_alert ("刷新数据失败：" ^ error_message error) ;;
         console_error error)
      (with_alertsData (or_empty (result_alerts r))
         (with_requests
            (requests p ++ [{| url := "/alerts/"; method := "GET";
                               content_type := EmptyString;
                               body := EmptyString |}]) p)).
Proof. reflexivity. Qed.

Lemma searchAlerts_success (Date_parse : string -> option Z) (r : Result)
    (p : Page) :
  searchAlerts Date_parse (success r) p
  = try_catch
      (renderAlertsTable ;; updateCoreMetrics ;; renderCharts Date_parse ;;
       data <- alertsData_for "length" ;;
       window_alert ("搜索完成，共找到 " ^ Str.of_nat (List.length data)
                     ^ " 条记录"))
      (fun error =>
         window_alert ("搜索告警失败：" ^ error_message error) ;;
         console_error error)
      (with_alertsData (or_empty (result_alerts r))
         (with_requests (requests p ++ [search_request (search_form p)]) p)).
Proof. reflexivity. Qed.

(** C8: after a successful fetch-all or search response the store holds
    [result.alerts] when the response has that collection, and the empty
    collection when the field is absent (or null); it never holds null or
    undefined. *)
Theorem installed_collection (Date_parse : string -> option Z) (r : Result)
    (p : Page) :
  let installed :=
    match result_alerts r with
    | Array l => Array l
    | AUndefined => Array []
    | ANull => Array []
    end in
  alertsData (state_after (refreshAlerts Date_parse (success r)) p)
  = installed
  /\ alertsData (state_after (searchAlerts Date_parse (success r)) p)
     = installed
  /\ (exists l, installed = Array l)
  /\ installed <> ANull /\ installed <> AUndefined.
Proof.
  intros installed.
  assert (E : or_empty (result_alerts r) = installed).
  { unfold installed. now destruct (result_alerts r). }
  split; [|split].
  - unfold state_after. rewrite refreshAlerts_success.
    assert (P : Preserves (fun q => alertsData q = installed)
                  (try_catch
                     (renderAlertsTable ;; updateCoreMetrics ;;
                      renderCharts Date_parse)
                     (fun error =>
                        window_alert ("刷新数据失败：" ^ error_message error) ;;
                        console_error error)))
      by preserve.
    apply P. exact E.
  - unfold state_after. rewrite searchAlerts_success.
    assert (P : Preserves (fun q => alertsData q = installed)
                  (try_catch
                     (renderAlertsTable ;; updateCoreMetrics ;;
                      renderCharts Date_parse ;;
                      data <- alertsData_for "length" ;;
                      window_alert
                        ("搜索完成，共找到 " ^ Str.of_nat (List.length data)
                         ^ " 条记录"))
                     (fun error =>
                        window_alert ("搜索告警失败：" ^ error_message error) ;;
                        console_error error)))
      by preserve.
    apply P. exact E.
  - unfold installed.
    destruct (result_alerts r); repeat split; eauto; discriminate.
Qed.

(** ** Failing operations *)

(** C5, as the code has it: when a load, a search or a submission fails
    because the transport fails, the status is not a success, or the body
    is not JSON, the handler completes normally, the store, the table,
    the cards and the charts are as before, and exactly one dialog is
    added: the prefix of the operation followed by the message of the
    error.  So it is for a reset, which loads, and for the load that
    follows a submission that went through: that one adds the
    confirmation and then the one error dialog of the load.  A body that
    is JSON of another shape is not among these failures. *)
Theorem failed_operation_keeps_snapshot (Date_parse : string -> option Z)
    (net : Outcome) (Hfail : failing net = true) (p : Page) :
  (completion (refreshAlerts Date_parse net) p = Normal tt
   /\ snapshot_kept p (state_after (refreshAlerts Date_parse net) p)
   /\ dialogs (state_after (refreshAlerts Date_parse net) p)
      = dialogs p ++ ["刷新数据失败：" ^ failure_text "接口请求失败" net])
  /\ (completion (searchAlerts Date_parse net) p = Normal tt
      /\ snapshot_kept p (state_after (searchAlerts Date_parse net) p)
      /\ dialogs (state_after (searchAlerts Date_parse net) p)
         = dialogs p ++ ["搜索告警失败：" ^ failure_text "搜索失败" net])
  /\ (forall get,
        completion (submitAlert Date_parse net get) p = Normal tt
        /\ snapshot_kept p (state_after (submitAlert Date_parse net get) p)
        /\ dialogs (state_after (submitAlert Date_parse net get) p)
           = dialogs p ++ ["提交告警失败：" ^ failure_text "提交失败" net])
  /\ (completion (resetSearch Date_parse net) p = Normal tt
      /\ snapshot_kept p (state_after (resetSearch Date_parse net) p)
      /\ dialogs (state_after (resetSearch Date_parse net) p)
         = dialogs p ++ ["刷新数据失败：" ^ failure_text "接口请求失败" net])
  /\ (forall r,
        completion (submitAlert Date_parse (success r) net) p = Normal tt
        /\ snapshot_kept p
             (state_after (submitAlert Date_parse (success r) net) p)
        /\ dialogs (state_after (submitAlert Date_parse (success r) net) p)
           = dialogs p
             ++ [ ToString (Prim (result_message r));
                  "刷新数据失败：" ^ failure_text "接口请求失败" net ]).
Proof.
  destruct net as [why|[[|] [why|r]]]; try discriminate Hfail;
    unfold snapshot_kept; repeat split;
    simpl; now rewrite <- app_assoc.
Qed.

Lemma failed_operation_keeps_snapshot_witness :
  let p := initial_page
             {| search_hostname := EmptyString;
                search_start_time := EmptyString;
                search_end_time := EmptyString |}
             {| form_hostname := "web-01"; form_metric := "cpu_usage";
                form_value := "95"; form_message := EmptyString |} in
  failing (Rejected "Failed to fetch") = true
  /\ dialogs (state_after
                (submitAlert UTC.parse (Rejected "Failed to fetch")
                   (Rejected "Failed to fetch")) p)
     = ["提交告警失败：Failed to fetch"].
Proof.
  cbv zeta. split; [reflexivity|].
  exact (proj2 (proj2 (proj1 (proj2 (proj2
           (@failed_operation_keeps_snapshot UTC.parse
              (Rejected "Failed to fetch") eq_refl
              (initial_page
                 {| search_hostname := EmptyString;
                    search_start_time := EmptyString;
                    search_end_time := EmptyString |}
                 {| form_hostname := "web-01"; form_metric := "cpu_usage";
                    form_value := "95"; form_message := EmptyString |}))))
           (Rejected "Failed to fetch")))).
Defined.

(** C5 as stated fails: a body that parses but has a number where the
    collection belongs makes the load fail -- the error is caught and
    the one dialog of a failed load is shown -- yet the last successful
    snapshot is gone: the store holds the number, and the table, which
    showed one row, is empty.  The cards and the charts still show the
    record. *)
Lemma misshaped_load_loses_snapshot :
  let r := mkAlert "2024-01-01 10:00:00" "web-01" "cpu_usage" 95 in
  let p := state_after
             (refreshAlerts UTC.parse
                (success {| result_alerts := Array [r];
                            result_message := Undefined |}))
             (initial_page
                {| search_hostname := EmptyString;
                   search_start_time := EmptyString;
                   search_end_time := EmptyString |}
                {| form_hostname := EmptyString; form_metric := "cpu_usage";
                   form_value := EmptyString;
                   form_message := EmptyString |}) in
  let failed := refreshAlerts_number 5 p in
  (alertsData p = Array [r]
   /\ alerts_table_body p = [row_html r]
   /\ total_alerts (cards p) = "1"
   /\ dialogs p = [])
  /\ fst failed = Normal tt
  /\ dialogs (around (snd failed))
     = ["刷新数据失败：alertsData.forEach is not a function"]
  /\ number_held (snd failed) = 5%Z
  /\ alerts_table_body (around (snd failed)) = []
  /\ alerts_table_body (around (snd failed)) <> alerts_table_body p
  /\ cards (around (snd failed)) = cards p
  /\ cpuTrendChart (around (snd failed)) = cpuTrendChart p
  /\ alertTypeChart (around (snd failed)) = alertTypeChart p.
Proof.
  vm_compute. repeat split. discriminate.
Qed.

(** ** The search request *)

Lemma search_params_present (f : SearchForm) :
  search_params f
  = present "hostname" (Str.trim (search_hostname f))
    ++ present "start_time" (search_start_time f)
    ++ present "end_time" (search_end_time f).
Proof.
  unfold search_params, present, URLSearchParams.append.
  destruct (Str.is_empty (Str.trim (search_hostname f)));
    destruct (Str.is_empty (search_start_time f));
    destruct (Str.is_empty (search_end_time f)); reflexivity.
Qed.

Lemma searchAlerts_requests (Date_parse : string -> option Z)
    (net : Outcome) (p : Page) :
  requests (state_after (searchAlerts Date_parse net) p)
  = requests p ++ [search_request (search_form p)].
Proof.
  destruct net as [why|[[|] [why|r]]]; try reflexivity.
  unfold state_after. change (Responded _) with (success r).
  rewrite searchAlerts_success.
  match goal with
  | |- requests (snd (?m _)) = ?x =>
      assert (P : Preserves (fun page => requests page = x) m) by preserve;
      apply P
  end.
  reflexivity.
Qed.

(** C6, as the code has it: every search issues one GET request to
    [/alerts/search?] followed by the serialized parameters, whatever
    the network then does; the parameters are [hostname] with the trimmed
    host name when that is not empty, [start_time] and [end_time] with
    the texts as entered (not trimmed) when they are not empty, in this
    order and nothing else; with nothing to send the URL is
    [/alerts/search?], and it is never the fetch-all route [/alerts/]. *)
Theorem search_request_route (Date_parse : string -> option Z)
    (net : Outcome) (p : Page) :
  let f := search_form p in
  requests (state_after (searchAlerts Date_parse net) p)
  = requests p ++ [search_request f]
  /\ url (search_request f)
     = ("/alerts/search?" ^ URLSearchParams.toString (search_params f))%string
  /\ method (search_request f) = "GET"
  /\ search_params f
     = present "hostname" (Str.trim (search_hostname f))
       ++ present "start_time" (search_start_time f)
       ++ present "end_time" (search_end_time f)
  /\ (Str.trim (search_hostname f) = EmptyString ->
      search_start_time f = EmptyString ->
      search_end_time f = EmptyString ->
      search_params f = [] /\ url (search_request f) = "/alerts/search?")
  /\ url (search_request f) <> "/alerts/".
Proof.
  intros f. split; [apply searchAlerts_requests|].
  split; [reflexivity|]. split; [reflexivity|].
  split; [apply search_params_present|]. split.
  - intros Hh Hs He. unfold search_request.
    rewrite search_params_present, Hh, Hs, He. simpl. split; reflexivity.
  - unfold search_request. simpl. discriminate.
Qed.

(** C6 as stated fails: a start time entered with a leading space is
    sent with the space, not trimmed. *)
Lemma search_start_time_not_trimmed :
  let f := {| search_hostname := EmptyString;
              search_start_time := " 2024-01-01T00:00";
              search_end_time := EmptyString |} in
  search_params f = [("start_time", " 2024-01-01T00:00")]
  /\ present_trimmed f = [("start_time", "2024-01-01T00:00")]
  /\ search_params f <> present_trimmed f
  /\ url (search_request f) = "/alerts/search?start_time=+2024-01-01T00%3A00".
Proof. cbv zeta. repeat split. discriminate. Qed.

Lemma search_request_route_witness :
  let p := initial_page
             {| search_hostname := "   "; search_start_time := EmptyString;
                search_end_time := EmptyString |}
             {| form_hostname := EmptyString; form_metric := "cpu_usage";
                form_value := EmptyString; form_message := EmptyString |} in
  url (search_request (search_form p)) = "/alerts/search?".
Proof.
  cbv zeta.
  apply (proj1 (proj2 (proj2 (proj2 (proj2
           (search_request_route UTC.parse (Rejected "offline")
              (initial_page
                 {| search_hostname := "   ";
                    search_start_time := EmptyString;
                    search_end_time := EmptyString |}
                 {| form_hostname := EmptyString;
                    form_metric := "cpu_usage";
                    form_value := EmptyString;
                    form_message := EmptyString |}))))))); reflexivity.
Defined.

(** ** The table *)

Lemma forEach_rows (l : list AlertRecord) (p : Page) :
  forEach l (fun alert =>
    write (fun p =>
             with_table_body (alerts_table_body p ++ [row_html alert]) p)) p
  = (Normal tt,
     with_table_body (alerts_table_body p ++ map row_html l) p).
Proof.
  revert p. induction l as [|a l IH]; intros p; simpl.
  - rewrite app_nil_r. now destruct p.
  - unfold bind. simpl. rewrite IH. simpl.
    now rewrite <- app_assoc.
Qed.

(** One row per record when there are records. *)
Lemma renderAlertsTable_rows (a : AlertRecord) (l : list AlertRecord)
    (p : Page) :
  alerts_table_body
    (state_after renderAlertsTable (with_alertsData (Array (a :: l)) p))
  = map row_html (a :: l).
Proof.
  unfold state_after, renderAlertsTable, bind. simpl.
  unfold bind. simpl.
  change (fun x => write (fun p0 => with_table_body
            (alerts_table_body p0 ++ [row_html x]) p0))
    with (fun alert => write (fun p0 => with_table_body
            (alerts_table_body p0 ++ [row_html alert]) p0)).
  rewrite forEach_rows. reflexivity.
Qed.

(** C10: with an empty store the table is not left without rows: it gets
    exactly one row, the placeholder, a single cell spanning five columns
    with the text 暂无告警数据, and this row is no data row; so it is
    after a refresh that brings an empty collection. *)
Theorem empty_table_placeholder (Date_parse : string -> option Z)
    (p : Page) (note : prim) :
  completion renderAlertsTable (with_alertsData (Array []) p) = Normal tt
  /\ alerts_table_body
       (state_after renderAlertsTable (with_alertsData (Array []) p))
     = [placeholder_row]
  /\ placeholder_row = td 5 "text-center" "暂无告警数据"
  /\ (forall a, placeholder_row <> row_html a)
  /\ alerts_table_body
       (state_after
          (refreshAlerts Date_parse
             (success {| result_alerts := Array [];
                         result_message := note |})) p)
     = [placeholder_row].
Proof.
  split; [reflexivity|]. split; [reflexivity|]. split; [reflexivity|].
  split; [intros a; discriminate|].
  unfold state_after. rewrite refreshAlerts_success.
  erewrite try_bind_normal; [|reflexivity].
  match goal with
  | |- alerts_table_body (snd (?m _)) = ?x =>
      assert (P : Preserves (fun page => alerts_table_body page = x) m)
        by preserve;
      apply P
  end.
  reflexivity.
Qed.

(** ** Chart slots *)

Lemma live_snoc (canvas : string) (log : list ChartEvent) (e : ChartEvent) :
  live canvas (log ++ [e]) = chart_step canvas (live canvas log) e.
Proof. unfold live. now rewrite fold_left_app. Qed.

Lemma never_two_snoc (log : list ChartEvent) (e : ChartEvent) :
  never_two log ->
  (forall canvas, List.length (live canvas (log ++ [e])) <= 1) ->
  never_two (log ++ [e]).
Proof.
  intros Hlog He canvas pre suf E.
  induction suf as [|x suf' _] using rev_ind.
  - rewrite app_nil_r in E. subst pre. apply He.
  - rewrite app_assoc in E. apply app_inj_tail in E.
    destruct E as [E _]. now apply (Hlog canvas pre suf').
Qed.

Lemma option_list_length (A : Type) (o : option A) :
  List.length (option_list o) <= 1.
Proof. destruct o; simpl; lia. Qed.

Lemma slots_bound_at (log : list ChartEvent) (a b : list Chart) :
  live cpu_canvas log = a -> live type_canvas log = b ->
  List.length a <= 1 -> List.length b <= 1 ->
  (forall canvas, canvas <> cpu_canvas -> canvas <> type_canvas ->
                  live canvas log = []) ->
  forall canvas, List.length (live canvas log) <= 1.
Proof.
  intros Hc Ht La Lb Hn canvas.
  destruct (string_dec canvas cpu_canvas) as [->|Nc]; [now rewrite Hc|].
  destruct (string_dec canvas type_canvas) as [->|Nt]; [now rewrite Ht|].
  rewrite Hn; simpl; auto.
Qed.

Lemma filter_length_le (A : Type) (test : A -> bool) (l : list A) :
  List.length (filter test l) <= List.length l.
Proof.
  induction l as [|x l IH]; simpl; trivial.
  destruct (test x); simpl; lia.
Qed.

Lemma destroy_step_bound (log : list ChartEvent) (c : Chart) :
  never_two log -> never_two (log ++ [Destroyed c]).
Proof.
  intros H. apply never_two_snoc; trivial.
  intros cv. rewrite live_snoc. simpl.
  etransitivity; [apply filter_length_le|].
  apply (H cv log []). now rewrite app_nil_r.
Qed.

Lemma same_chart_refl (c : Chart) : same_chart c c = true.
Proof. apply Nat.eqb_refl. Qed.

Lemma keep_other (c : Chart) (o : option Chart) :
  (forall d, o = Some d -> chart_id c <> chart_id d) ->
  filter (fun d => negb (same_chart c d)) (option_list o) = option_list o.
Proof.
  destruct o as [d|]; simpl; trivial.
  intros H. unfold same_chart.
  destruct (Nat.eqb_spec (chart_id c) (chart_id d)) as [E|_]; trivial.
  now destruct (H d eq_refl).
Qed.

Lemma renderCpuTrendChart_state (data : Series) (p : Page) :
  renderCpuTrendChart data p
  = let r := replaced (cpuTrendChart p) (chart_log p) cpu_canvas "line"
               data ["#0d6efd"] in
    (Normal tt, with_cpuTrendChart (Some (fst r)) (with_chart_log (snd r) p)).
Proof.
  destruct p as [store [c|] ty body cds sf sfd af afd log dl cs rq];
    unfold replaced; simpl; rewrite ?app_nil_r; reflexivity.
Qed.

Lemma renderAlertTypeChart_state (data : Series) (p : Page) :
  renderAlertTypeChart data p
  = let r := replaced (alertTypeChart p) (chart_log p) type_canvas "doughnut"
               data (firstn (List.length (labels data)) colors) in
    (Normal tt, with_alertTypeChart (Some (fst r)) (with_chart_log (snd r) p)).
Proof.
  destruct p as [store cpu [c|] body cds sf sfd af afd log dl cs rq];
    unfold replaced; simpl; rewrite ?app_nil_r; reflexivity.
Qed.

Lemma renderCpuTrendChart_after (data : Series) (p : Page) :
  snd (renderCpuTrendChart data p)
  = with_cpuTrendChart
      (Some (fst (replaced (cpuTrendChart p) (chart_log p) cpu_canvas "line"
                    data ["#0d6efd"])))
      (with_chart_log
         (snd (replaced (cpuTrendChart p) (chart_log p) cpu_canvas "line"
                 data ["#0d6efd"])) p).
Proof. now rewrite renderCpuTrendChart_state. Qed.

Lemma renderAlertTypeChart_after (data : Series) (p : Page) :
  snd (renderAlertTypeChart data p)
  = with_alertTypeChart
      (Some (fst (replaced (alertTypeChart p) (chart_log p) type_canvas
                    "doughnut" data
                    (firstn (List.length (labels data)) colors))))
      (with_chart_log
         (snd (replaced (alertTypeChart p) (chart_log p) type_canvas
                 "doughnut" data
                 (firstn (List.length (labels data)) colors))) p).
Proof. now rewrite renderAlertTypeChart_state. Qed.

(** The effect of a replacement on what is alive on a canvas [cv]. *)
Lemma replaced_live (old : option Chart) (log : list ChartEvent)
    (canvas type : string) (series : Series) (palette : list string)
    (cv : string) :
  let r := replaced old log canvas type series palette in
  live cv (snd r)
  = (match old with
     | Some c => filter (fun d => negb (same_chart c d)) (live cv log)
     | None => live cv log
     end)
    ++ (if String.eqb canvas cv then [fst r] else []).
Proof.
  unfold replaced. cbv zeta. unfold snd, fst. rewrite live_snoc.
  unfold chart_step at 1, on_canvas. simpl chart_canvas.
  destruct old as [c|]; simpl map.
  - rewrite live_snoc. simpl chart_step.
    destruct (String.eqb canvas cv); [reflexivity|now rewrite app_nil_r].
  - rewrite app_nil_r.
    destruct (String.eqb canvas cv); [reflexivity|now rewrite app_nil_r].
Qed.

Lemma replaced_never_two (old : option Chart) (log : list ChartEvent)
    (canvas type : string) (series : Series) (palette : list string) :
  let r := replaced old log canvas type series palette in
  never_two log ->
  (forall cv, List.length (live cv (snd r)) <= 1) ->
  never_two (snd r).
Proof.
  cbv zeta. intros Hlog Hnew. unfold replaced in *. simpl snd in *.
  apply never_two_snoc; trivial.
  destruct old as [c|]; simpl.
  - now apply destroy_step_bound.
  - now rewrite app_nil_r.
Qed.

Lemma replaced_id (old : option Chart) (log : list ChartEvent)
    (canvas type : string) (series : Series) (palette : list string) :
  let r := replaced old log canvas type series palette in
  List.length log <= chart_id (fst r)
  /\ chart_id (fst r) < List.length (snd r).
Proof.
  unfold replaced. simpl. rewrite !length_app. simpl. lia.
Qed.

Lemma renderCpuTrendChart_ok (data : Series) :
  Preserves slots_ok (renderCpuTrendChart data).
Proof.
  intros p H. rewrite renderCpuTrendChart_after.
  set (r := replaced (cpuTrendChart p) (chart_log p) cpu_canvas "line"
              data ["#0d6efd"]).
  pose proof (replaced_id (cpuTrendChart p) (chart_log p) cpu_canvas "line"
                data ["#0d6efd"]) as Hid.
  pose proof (replaced_live (cpuTrendChart p) (chart_log p) cpu_canvas
                "line" data ["#0d6efd"]) as Hlive.
  cbv zeta in Hid, Hlive. fold r in Hid, Hlive. destruct Hid as [Hge Hlt].
  assert (Hc : live cpu_canvas (snd r) = [fst r]).
  { rewrite Hlive, (cpu_live H), String.eqb_refl.
    destruct (cpuTrendChart p) as [c|]; simpl; trivial.
    now rewrite same_chart_refl. }
  assert (Ht : live type_canvas (snd r) = option_list (alertTypeChart p)).
  { rewrite Hlive, (type_live H). simpl String.eqb. rewrite app_nil_r.
    destruct (cpuTrendChart p) as [c|] eqn:E; trivial.
    apply keep_other. intros d Hd. now apply (slots_differ H). }
  assert (Hn : forall cv, cv <> cpu_canvas -> cv <> type_canvas ->
                          live cv (snd r) = []).
  { intros cv N1 N2. rewrite Hlive, (none_elsewhere H N1 N2).
    destruct (String.eqb cpu_canvas cv) eqn:Q.
    - apply String.eqb_eq in Q. congruence.
    - now destruct (cpuTrendChart p). }
  assert (Hlog : never_two (snd r))
    by (apply replaced_never_two;
        [apply (log_never_two H)
        | apply (@slots_bound_at _ _ _ Hc Ht); simpl;
          auto using option_list_length]).
  clearbody r. constructor; simpl; trivial.
  - intros c E. inversion E; subst. exact Hlt.
  - intros c E. pose proof (type_known H E). lia.
  - intros c d E1 E2. inversion E1; subst.
    pose proof (type_known H E2). lia.
Qed.

Lemma renderAlertTypeChart_ok (data : Series) :
  Preserves slots_ok (renderAlertTypeChart data).
Proof.
  intros p H. rewrite renderAlertTypeChart_after.
  set (palette := firstn (List.length (labels data)) colors).
  set (r := replaced (alertTypeChart p) (chart_log p) type_canvas "doughnut"
              data palette).
  pose proof (replaced_id (alertTypeChart p) (chart_log p) type_canvas
                "doughnut" data palette) as Hid.
  pose proof (replaced_live (alertTypeChart p) (chart_log p) type_canvas
                "doughnut" data palette) as Hlive.
  cbv zeta in Hid, Hlive. fold r in Hid, Hlive. destruct Hid as [Hge Hlt].
  assert (Ht : live type_canvas (snd r) = [fst r]).
  { rewrite Hlive, (type_live H), String.eqb_refl.
    destruct (alertTypeChart p) as [c|]; simpl; trivial.
    now rewrite same_chart_refl. }
  assert (Hc : live cpu_canvas (snd r) = option_list (cpuTrendChart p)).
  { rewrite Hlive, (cpu_live H). simpl String.eqb. rewrite app_nil_r.
    destruct (alertTypeChart p) as [c|] eqn:E; trivial.
    apply keep_other. intros d Hd E'.
    now apply (slots_differ H Hd E). }
  assert (Hn : forall cv, cv <> cpu_canvas -> cv <> type_canvas ->
                          live cv (snd r) = []).
  { intros cv N1 N2. rewrite Hlive, (none_elsewhere H N1 N2).
    destruct (String.eqb type_canvas cv) eqn:Q.
    - apply String.eqb_eq in Q. congruence.
    - now destruct (alertTypeChart p). }
  assert (Hlog : never_two (snd r))
    by (apply replaced_never_two;
        [apply (log_never_two H)
        | apply (@slots_bound_at _ _ _ Hc Ht); simpl;
          auto using option_list_length]).
  clearbody r. constructor; simpl; trivial.
  - intros c E. pose proof (cpu_known H E). lia.
  - intros c E. inversion E; subst. exact Hlt.
  - intros c d E1 E2. inversion E2; subst.
    pose proof (cpu_known H E1). lia.
Qed.

#[local] Hint Resolve renderCpuTrendChart_ok renderAlertTypeChart_ok
  : preserves.

Lemma with_alertsData_ok (v : maybe_array) (p : Page) :
  slots_ok p -> slots_ok (with_alertsData v p).
Proof. intros [? ? ? ? ? ? ?]. now constructor. Qed.

Lemma with_table_body_ok (v : list string) (p : Page) :
  slots_ok p -> slots_ok (with_table_body v p).
Proof. intros [? ? ? ? ? ? ?]. now constructor. Qed.

Lemma with_cards_ok (v : Cards) (p : Page) :
  slots_ok p -> slots_ok (with_cards v p).
Proof. intros [? ? ? ? ? ? ?]. now constructor. Qed.

Lemma with_search_form_ok (v : SearchForm) (p : Page) :
  slots_ok p -> slots_ok (with_search_form v p).
Proof. intros [? ? ? ? ? ? ?]. now constructor. Qed.

Lemma with_alert_form_ok (v : AlertForm) (p : Page) :
  slots_ok p -> slots_ok (with_alert_form v p).
Proof. intros [? ? ? ? ? ? ?]. now constructor. Qed.

Lemma with_dialogs_ok (v : list string) (p : Page) :
  slots_ok p -> slots_ok (with_dialogs v p).
Proof. intros [? ? ? ? ? ? ?]. now constructor. Qed.

Lemma with_console_ok (v : list Error) (p : Page) :
  slots_ok p -> slots_ok (with_console v p).
Proof. intros [? ? ? ? ? ? ?]. now constructor. Qed.

Lemma with_requests_ok (v : list Request) (p : Page) :
  slots_ok p -> slots_ok (with_requests v p).
Proof. intros [? ? ? ? ? ? ?]. now constructor. Qed.

#[local] Hint Resolve with_alertsData_ok with_table_body_ok with_cards_ok
  with_search_form_ok with_alert_form_ok with_dialogs_ok with_console_ok
  with_requests_ok : core.

(** Every action keeps the slots and the log in agreement. *)
Lemma perform_ok (Date_parse : string -> option Z) (a : Action) :
  Preserves slots_ok (perform Date_parse a).
Proof. destruct a; preserve. Qed.

Lemma run_ok (Date_parse : string -> option Z) (actions : list Action)
    (p : Page) :
  slots_ok p -> slots_ok (run Date_parse actions p).
Proof.
  revert p. induction actions as [|a actions IH]; intros p H; simpl; trivial.
  apply IH. now apply perform_ok.
Qed.

Lemma initial_page_ok (sf : SearchForm) (af : AlertForm) :
  slots_ok (initial_page sf af).
Proof.
  constructor; simpl; trivial; try discriminate.
  intros canvas pre suf E. symmetry in E. apply app_eq_nil in E.
  destruct E as [-> _]. simpl. lia.
Qed.

(** C9: after any sequence of events on the page (loads, searches,
    resets, submissions with any outcome, form edits and direct repaints)
    no canvas has ever held two live charts at any moment of the Chart.js
    log; what lives on each of the two canvases is exactly what its slot
    holds; a repaint appends to the log the destruction of the slot's
    chart, if there is one, and only then the creation of the new chart;
    and after repainting a slot twice with the same series exactly one
    chart lives on its canvas. *)
Theorem one_live_chart_per_slot (Date_parse : string -> option Z)
    (actions : list Action) (sf : SearchForm) (af : AlertForm) :
  let p := run Date_parse actions (initial_page sf af) in
  never_two (chart_log p)
  /\ live cpu_canvas (chart_log p) = option_list (cpuTrendChart p)
  /\ live type_canvas (chart_log p) = option_list (alertTypeChart p)
  /\ (forall data,
        let q := state_after (renderCpuTrendChart data) p in
        chart_log q
        = chart_log p ++ map Destroyed (option_list (cpuTrendChart p))
          ++ map Created (option_list (cpuTrendChart q))
        /\ List.length (live cpu_canvas (chart_log q)) = 1)
  /\ (forall data,
        let q := state_after (renderAlertTypeChart data) p in
        chart_log q
        = chart_log p ++ map Destroyed (option_list (alertTypeChart p))
          ++ map Created (option_list (alertTypeChart q))
        /\ List.length (live type_canvas (chart_log q)) = 1)
  /\ (forall data,
        let q := state_after (renderCpuTrendChart data)
                   (state_after (renderCpuTrendChart data) p) in
        never_two (chart_log q)
        /\ List.length (live cpu_canvas (chart_log q)) = 1)
  /\ (forall data,
        let q := state_after (renderAlertTypeChart data)
                   (state_after (renderAlertTypeChart data) p) in
        never_two (chart_log q)
        /\ List.length (live type_canvas (chart_log q)) = 1).
Proof.
  intros p.
  assert (H : slots_ok p) by (apply run_ok, initial_page_ok).
  assert (Hcpu : forall data q, slots_ok q ->
            let q' := state_after (renderCpuTrendChart data) q in
            slots_ok q'
            /\ chart_log q'
               = chart_log q ++ map Destroyed (option_list (cpuTrendChart q))
                 ++ map Created (option_list (cpuTrendChart q'))
            /\ List.length (live cpu_canvas (chart_log q')) = 1).
  { intros data q Hq q'.
    assert (Hq' : slots_ok q') by now apply renderCpuTrendChart_ok.
    split; [exact Hq'|]. split.
    - unfold q', state_after. rewrite renderCpuTrendChart_after.
      unfold replaced. simpl. now rewrite <- app_assoc.
    - rewrite (cpu_live Hq'). unfold q', state_after.
      now rewrite renderCpuTrendChart_after. }
  assert (Htype : forall data q, slots_ok q ->
            let q' := state_after (renderAlertTypeChart data) q in
            slots_ok q'
            /\ chart_log q'
               = chart_log q
                 ++ map Destroyed (option_list (alertTypeChart q))
                 ++ map Created (option_list (alertTypeChart q'))
            /\ List.length (live type_canvas (chart_log q')) = 1).
  { intros data q Hq q'.
    assert (Hq' : slots_ok q') by now apply renderAlertTypeChart_ok.
    split; [exact Hq'|]. split.
    - unfold q', state_after. rewrite renderAlertTypeChart_after.
      unfold replaced. simpl. now rewrite <- app_assoc.
    - rewrite (type_live Hq'). unfold q', state_after.
      now rewrite renderAlertTypeChart_after. }
  split; [apply (log_never_two H)|].
  split; [apply (cpu_live H)|]. split; [apply (type_live H)|].
  split; [intros data; apply (Hcpu data p H)|].
  split; [intros data; apply (Htype data p H)|].
  split; intros data.
  - destruct (Hcpu data p H) as (H1 & _).
    destruct (Hcpu data _ H1) as (H2 & _ & L). cbv zeta.
    split; [apply (log_never_two H2) | exact L].
  - destruct (Htype data p H) as (H1 & _).
    destruct (Htype data _ H1) as (H2 & _ & L). cbv zeta.
    split; [apply (log_never_two H2) | exact L].
Qed.

(** A run with two loads, a failed search and two repaints: one chart
    per canvas at the end, four destroyed on the way. *)
Example two_loads_one_chart_each :
  let p := run UTC.parse
             [ DoRefresh (success {| result_alerts :=
                                       Array [mkAlert "2024-01-01 10:00:00"
                                                "h1" "cpu_usage" 90];
                                     result_message := Undefined |});
               DoSearch (Rejected "offline");
               DoRefresh (success {| result_alerts := AUndefined;
                                     result_message := Undefined |});
               RepaintCpu {| labels := []; values := [] |};
               RepaintCpu {| labels := []; values := [] |} ]
             (initial_page
                {| search_hostname := "web"; search_start_time := EmptyString;
                   search_end_time := EmptyString |}
                {| form_hostname := EmptyString; form_metric := "cpu_usage";
                   form_value := EmptyString; form_message := EmptyString |})
  in
  map chart_id (live cpu_canvas (chart_log p)) = [9]
  /\ map chart_id (live type_canvas (chart_log p)) = [5]
  /\ List.length (chart_log p) = 10
  /\ dialogs p = ["搜索告警失败：offline"]
  /\ alertsData p = Array []
  /\ alerts_table_body p = [placeholder_row].
Proof. cbv zeta. repeat split. Qed.

(** * Further properties of the script *)

(** ** Rendering a collection *)

Lemma bind_normal (A B : Type) (m : M A) (k : A -> M B) (p p' : Page)
    (a : A) :
  m p = (Normal a, p') -> bind m k p = k a p'.
Proof. intros E. unfold bind. now rewrite E. Qed.

Lemma renderAlertsTable_run (l : list AlertRecord) (p : Page) :
  alertsData p = Array l ->
  renderAlertsTable p = (Normal tt, with_table_body (table_rows l) p).
Proof.
  intros E.
  destruct p as [store cpu ty body cds sf sfd af afd log dl cs rq].
  simpl in E. subst store. destruct l as [|a l]; [reflexivity|].
  exact (forEach_rows (a :: l)
           (with_table_body []
              {| alertsData := Array (a :: l); cpuTrendChart := cpu;
                 alertTypeChart := ty; alerts_table_body := body;
                 cards := cds; search_form := sf; search_form_default := sfd;
                 alert_form := af; alert_form_default := afd;
                 chart_log := log; dialogs := dl; console := cs;
                 requests := rq |})).
Qed.

Lemma updateCoreMetrics_run (l : list AlertRecord) (p : Page) :
  alertsData p = Array l ->
  updateCoreMetrics p = (Normal tt, with_cards (cards_of l) p).
Proof.
  intros E. unfold updateCoreMetrics, alertsData_for, bind, read, write.
  rewrite E. unfold cards_of, errorHostCount. simpl.
  destruct (0 <? _)%nat; reflexivity.
Qed.

Lemma renderCharts_run (Date_parse : string -> option Z)
    (l : list AlertRecord) (p : Page) :
  alertsData p = Array l ->
  renderCharts Date_parse p = (Normal tt, repainted Date_parse l p).
Proof.
  intros E.
  destruct p as [store [c|] [d|] body cds sf sfd af afd log dl cs rq];
    simpl in E; subst store; unfold repainted, replaced; simpl;
    rewrite ?app_nil_r; reflexivity.
Qed.

Lemma render_all_run (Date_parse : string -> option Z)
    (l : list AlertRecord) (p : Page) :
  alertsData p = Array l ->
  (renderAlertsTable ;; updateCoreMetrics ;; renderCharts Date_parse) p
  = (Normal tt, rendered Date_parse l p).
Proof.
  intros E.
  rewrite (@bind_normal _ _ _ _ _ _ _ (@renderAlertsTable_run l p E)).
  rewrite (@bind_normal _ _ _ _ _ _ _
             (@updateCoreMetrics_run l (with_table_body (table_rows l) p) E)).
  now apply renderCharts_run.
Qed.

Lemma rendered_shows (Date_parse : string -> option Z)
    (l : list AlertRecord) (p : Page) :
  let q := rendered Date_parse l p in
  alertsData q = alertsData p
  /\ shows Date_parse l q
  /\ same_surroundings p q.
Proof.
  unfold shows, same_surroundings. repeat split.
Qed.

Lemma or_empty_installed (r : Result) :
  or_empty (result_alerts r) = Array (installed_list r).
Proof. unfold installed_list. now destruct (result_alerts r). Qed.

Lemma refreshAlerts_success_run (Date_parse : string -> option Z)
    (r : Result) (p : Page) :
  refreshAlerts Date_parse (success r) p
  = (Normal tt,
     rendered Date_parse (installed_list r)
       (with_alertsData (Array (installed_list r))
          (with_requests (requests p ++ [fetch_all_request]) p))).
Proof.
  rewrite refreshAlerts_success, or_empty_installed. unfold try_catch.
  set (p1 := with_alertsData (Array (installed_list r)) _).
  assert (E : alertsData p1 = Array (installed_list r)) by reflexivity.
  now rewrite (@render_all_run Date_parse (installed_list r) p1 E).
Qed.

Lemma searchAlerts_success_run (Date_parse : string -> option Z)
    (r : Result) (p : Page) :
  searchAlerts Date_parse (success r) p
  = (Normal tt,
     with_dialogs
       (dialogs p
        ++ [("搜索完成，共找到 "
             ^ Str.of_nat (List.length (installed_list r))
             ^ " 条记录")%string])
       (rendered Date_parse (installed_list r)
          (with_alertsData (Array (installed_list r))
             (with_requests (requests p ++ [search_request (search_form p)])
                p)))).
Proof.
  rewrite searchAlerts_success, or_empty_installed. unfold try_catch.
  set (l := installed_list r).
  set (p1 := with_alertsData (Array l) _).
  assert (E : alertsData p1 = Array l) by reflexivity.
  rewrite (@bind_normal _ _ _ _ _ _ _ (@renderAlertsTable_run l p1 E)).
  rewrite (@bind_normal _ _ _ _ _ _ _
             (@updateCoreMetrics_run l (with_table_body (table_rows l) p1) E)).
  rewrite (@bind_normal _ _ _ _ _ _ _
             (@renderCharts_run Date_parse l
                (with_cards (cards_of l)
                   (with_table_body (table_rows l) p1)) E)).
  reflexivity.
Qed.

(** X1: a load that succeeds completes without an exception and without
    a dialog, logs one GET of the fetch-all route, and leaves the store
    holding the installed collection with the table, the cards and both
    charts all showing that same collection; the forms and the console
    are untouched. *)
Theorem successful_refresh_shows_snapshot
    (Date_parse : string -> option Z) (r : Result) (p : Page) :
  let l := installed_list r in
  let q := state_after (refreshAlerts Date_parse (success r)) p in
  completion (refreshAlerts Date_parse (success r)) p = Normal tt
  /\ alertsData q = Array l
  /\ shows Date_parse l q
  /\ dialogs q = dialogs p
  /\ console q = console p
  /\ requests q = requests p ++ [fetch_all_request]
  /\ search_form q = search_form p
  /\ alert_form q = alert_form p.
Proof.
  unfold state_after, completion. rewrite refreshAlerts_success_run.
  unfold shows. repeat split.
Qed.

(** X2: a search that succeeds completes without an exception, logs one
    request to the search route, leaves the store, the table, the cards
    and both charts showing the installed collection, and shows exactly
    one dialog, which reports the number of records found; the search
    form keeps the criteria. *)
Theorem successful_search_reports_count
    (Date_parse : string -> option Z) (r : Result) (p : Page) :
  let l := installed_list r in
  let q := state_after (searchAlerts Date_parse (success r)) p in
  completion (searchAlerts Date_parse (success r)) p = Normal tt
  /\ alertsData q = Array l
  /\ shows Date_parse l q
  /\ dialogs q
     = dialogs p
       ++ [("搜索完成，共找到 " ^ Str.of_nat (List.length l)
            ^ " 条记录")%string]
  /\ console q = console p
  /\ requests q = requests p ++ [search_request (search_form p)]
  /\ search_form q = search_form p
  /\ alert_form q = alert_form p.
Proof.
  unfold state_after, completion. rewrite searchAlerts_success_run.
  unfold shows. repeat split.
Qed.

(** ** The views follow the store *)

Lemma outcome_cases (net : Outcome) :
  failing net = true \/ exists r, net = success r.
Proof.
  destruct net as [why|[[|] [why|r]]]; auto. right. now exists r.
Qed.

Lemma try_catch_normal (A : Type) (m : M A) (h : Error -> M A) (p : Page)
    (a : A) :
  fst (m p) = Normal a -> try_catch m h p = m p.
Proof.
  unfold try_catch. destruct (m p) as [[x|e] q]; simpl; congruence.
Qed.

Lemma refreshAlerts_failure (Date_parse : string -> option Z)
    (net : Outcome) (p : Page) :
  failing net = true ->
  fst (refreshAlerts Date_parse net p) = Normal tt
  /\ snapshot_kept p (snd (refreshAlerts Date_parse net p))
  /\ search_form (snd (refreshAlerts Date_parse net p)) = search_form p
  /\ alert_form (snd (refreshAlerts Date_parse net p)) = alert_form p
  /\ requests (snd (refreshAlerts Date_parse net p))
     = requests p ++ [fetch_all_request].
Proof.
  intros F. destruct net as [why|[[|] [why|r]]]; try discriminate F;
    unfold snapshot_kept; repeat split.
Qed.

Lemma searchAlerts_failure (Date_parse : string -> option Z)
    (net : Outcome) (p : Page) :
  failing net = true ->
  fst (searchAlerts Date_parse net p) = Normal tt
  /\ snapshot_kept p (snd (searchAlerts Date_parse net p))
  /\ search_form (snd (searchAlerts Date_parse net p)) = search_form p
  /\ alert_form (snd (searchAlerts Date_parse net p)) = alert_form p.
Proof.
  intros F. destruct net as [why|[[|] [why|r]]]; try discriminate F;
    unfold snapshot_kept; repeat split.
Qed.

Lemma refreshAlerts_normal (Date_parse : string -> option Z)
    (net : Outcome) (p : Page) :
  fst (refreshAlerts Date_parse net p) = Normal tt.
Proof.
  destruct (outcome_cases net) as [F|[r ->]].
  - now apply refreshAlerts_failure.
  - now rewrite refreshAlerts_success_run.
Qed.

Lemma searchAlerts_normal (Date_parse : string -> option Z)
    (net : Outcome) (p : Page) :
  fst (searchAlerts Date_parse net p) = Normal tt.
Proof.
  destruct (outcome_cases net) as [F|[r ->]].
  - now apply searchAlerts_failure.
  - now rewrite searchAlerts_success_run.
Qed.

(** A submission that went through: the confirmation, the form reset,
    then the load. *)
Lemma submitAlert_success_run (Date_parse : string -> option Z)
    (r : Result) (get : Outcome) (p : Page) :
  submitAlert Date_parse (success r) get p
  = refreshAlerts Date_parse get
      (with_alert_form (alert_form_default p)
         (with_dialogs (dialogs p ++ [ToString (Prim (result_message r))])
            (with_requests (requests p ++ [submit_request (alert_form p)])
               p))).
Proof.
  set (p' := with_alert_form _ _).
  transitivity
    (try_catch (refreshAlerts Date_parse get)
       (fun error =>
          window_alert ("提交告警失败：" ^ error_message error) ;;
          console_error error) p'); [reflexivity|].
  apply try_catch_normal with (a := tt). apply refreshAlerts_normal.
Qed.

Lemma submitAlert_failure (Date_parse : string -> option Z)
    (post get : Outcome) (p : Page) :
  failing post = true ->
  fst (submitAlert Date_parse post get p) = Normal tt
  /\ snapshot_kept p (snd (submitAlert Date_parse post get p))
  /\ search_form (snd (submitAlert Date_parse post get p)) = search_form p
  /\ alert_form (snd (submitAlert Date_parse post get p)) = alert_form p
  /\ requests (snd (submitAlert Date_parse post get p))
     = requests p ++ [submit_request (alert_form p)].
Proof.
  intros F. destruct post as [why|[[|] [why|r]]]; try discriminate F;
    unfold snapshot_kept; repeat split.
Qed.

Lemma views_kept (Date_parse : string -> option Z) (p q : Page) :
  snapshot_kept p q ->
  views_follow_store Date_parse p -> views_follow_store Date_parse q.
Proof.
  intros (E1 & E2 & E3 & E4 & E5 & E6) (l & Hl & Hv).
  exists l. split; [congruence|].
  unfold pristine, shows in *. rewrite E1, E2, E3, E4, E5, E6. exact Hv.
Qed.

Lemma refreshAlerts_views (Date_parse : string -> option Z)
    (net : Outcome) (p : Page) :
  views_follow_store Date_parse p ->
  views_follow_store Date_parse (snd (refreshAlerts Date_parse net p)).
Proof.
  intros H. destruct (outcome_cases net) as [F|[r ->]].
  - apply (@views_kept Date_parse p); trivial.
    now apply refreshAlerts_failure.
  - rewrite refreshAlerts_success_run. exists (installed_list r).
    split; [reflexivity|]. right. unfold shows. repeat split.
Qed.

Lemma searchAlerts_views (Date_parse : string -> option Z)
    (net : Outcome) (p : Page) :
  views_follow_store Date_parse p ->
  views_follow_store Date_parse (snd (searchAlerts Date_parse net p)).
Proof.
  intros H. destruct (outcome_cases net) as [F|[r ->]].
  - apply (@views_kept Date_parse p); trivial.
    now apply searchAlerts_failure.
  - rewrite searchAlerts_success_run. exists (installed_list r).
    split; [reflexivity|]. right. unfold shows. repeat split.
Qed.

Lemma perform_views (Date_parse : string -> option Z) (a : Action)
    (p : Page) :
  user_event a = true ->
  views_follow_store Date_parse p ->
  views_follow_store Date_parse (state_after (perform Date_parse a) p).
Proof.
  intros U H. unfold state_after.
  destruct a as [net|net|net|post get|f|f|data|data];
    try discriminate U; simpl perform.
  - now apply refreshAlerts_views.
  - now apply searchAlerts_views.
  - change (resetSearch Date_parse net p)
      with (refreshAlerts Date_parse net
              (with_search_form (search_form_default p) p)).
    apply refreshAlerts_views.
    apply (@views_kept Date_parse p); trivial.
    unfold snapshot_kept. repeat split.
  - destruct (outcome_cases post) as [F|[r ->]].
    + apply (@views_kept Date_parse p); trivial.
      now apply submitAlert_failure.
    + rewrite submitAlert_success_run. apply refreshAlerts_views.
      apply (@views_kept Date_parse p); trivial.
      unfold snapshot_kept. repeat split.
  - apply (@views_kept Date_parse p); trivial.
    unfold snapshot_kept. repeat split.
  - apply (@views_kept Date_parse p); trivial.
    unfold snapshot_kept. repeat split.
Qed.

(** X3: whatever the user does, as long as every request ends in one of
    the ways of [Outcome] -- the transport fails, the status is not a
    success, the body is not JSON, or the body is an object of the
    expected shape, with [alerts] absent, null or an array of records
    that have every field -- the store always holds a collection (never
    null or undefined), and the table, the cards and both charts always
    show that same collection -- or nothing has been rendered yet, which
    is the case until the first load or search succeeds.  A body of
    another shape is outside [Outcome] and outside this property:
    [refreshAlerts_number] leaves a page where it does not hold. *)
Theorem views_always_follow_store (Date_parse : string -> option Z)
    (actions : list Action) (sf : SearchForm) (af : AlertForm)
    (Huser : forallb user_event actions = true) :
  views_follow_store Date_parse
    (run Date_parse actions (initial_page sf af)).
Proof.
  assert (G : forall p, views_follow_store Date_parse p ->
                        views_follow_store Date_parse
                          (run Date_parse actions p)).
  { induction actions as [|a actions IH]; intros p H; simpl; trivial.
    simpl in Huser. apply andb_true_iff in Huser.
    destruct Huser as [Ua Urest].
    apply IH; trivial. now apply perform_views. }
  apply G. exists []. split; [reflexivity|]. left.
  unfold pristine. repeat split.
Qed.

(** ** Requests, dialogs and forms *)

Lemma refreshAlerts_effects (Date_parse : string -> option Z)
    (net : Outcome) (p : Page) :
  effects p (DoRefresh net) (snd (refreshAlerts Date_parse net p)).
Proof.
  unfold effects.
  destruct net as [why|[[|] [why|r]]];
    try (repeat split; simpl; now rewrite ?app_nil_r).
  change (Responded _) with (success r).
  rewrite refreshAlerts_success_run.
  repeat split; simpl; now rewrite ?app_nil_r.
Qed.

Lemma searchAlerts_effects (Date_parse : string -> option Z)
    (net : Outcome) (p : Page) :
  effects p (DoSearch net) (snd (searchAlerts Date_parse net p)).
Proof.
  unfold effects.
  destruct net as [why|[[|] [why|r]]];
    try (repeat split; simpl; now rewrite ?app_nil_r).
  change (Responded _) with (success r).
  rewrite searchAlerts_success_run.
  repeat split; simpl; now rewrite ?app_nil_r.
Qed.

Lemma submitAlert_effects (Date_parse : string -> option Z)
    (post get : Outcome) (p : Page) :
  effects p (DoSubmit post get) (snd (submitAlert Date_parse post get p)).
Proof.
  destruct post as [why|[[|] [why|r]]];
    try (unfold effects; repeat split; simpl; now rewrite ?app_nil_r).
  change (Responded _) with (success r).
  rewrite submitAlert_success_run.
  set (p' := with_alert_form _ _).
  destruct (refreshAlerts_effects Date_parse get p')
    as (R & D & S & A & SD & AD).
  unfold effects. rewrite R, D, S, A, SD, AD.
  unfold p'. simpl. rewrite <- !app_assoc. repeat split.
Qed.

(** X4: the effects of every action outside the store and the views.
    A load or a reset issues one GET of the fetch-all route, a search one
    GET of the search route built from the form, a submission one POST
    and, only when it went through, one GET of the fetch-all route after
    it; edits and repaints issue nothing.  A load shows a dialog only
    when it fails; a search always shows exactly one, the count or the
    error; a submission shows its error, or the confirmation followed by
    the dialog of the load, if any.  Only a reset and an edit change the
    search form; only an edit and a submission that went through change
    the alert form; nothing changes the defaults. *)
Theorem effects_of_action (Date_parse : string -> option Z) (a : Action)
    (p : Page) :
  effects p a (state_after (perform Date_parse a) p).
Proof.
  unfold state_after.
  destruct a as [net|net|net|post get|f|f|data|data]; simpl perform.
  - apply refreshAlerts_effects.
  - apply searchAlerts_effects.
  - change (resetSearch Date_parse net p)
      with (refreshAlerts Date_parse net
              (with_search_form (search_form_default p) p)).
    destruct (refreshAlerts_effects Date_parse net
                (with_search_form (search_form_default p) p))
      as (R & D & S & A & SD & AD).
    unfold effects. rewrite R, D, S, A, SD, AD. repeat split.
  - apply submitAlert_effects.
  - unfold effects. simpl. rewrite !app_nil_r. repeat split.
  - unfold effects. simpl. rewrite !app_nil_r. repeat split.
  - rewrite renderCpuTrendChart_after. unfold effects. simpl.
    rewrite !app_nil_r. repeat split.
  - rewrite renderAlertTypeChart_after. unfold effects. simpl.
    rewrite !app_nil_r. repeat split.
Qed.

(** X5: no action ends with an exception: whatever the page holds and
    however the requests end, every entry point completes normally. *)
Theorem no_exception_escapes (Date_parse : string -> option Z)
    (a : Action) (p : Page) :
  completion (perform Date_parse a) p = Normal tt.
Proof.
  unfold completion.
  destruct a as [net|net|net|post get|f|f|data|data]; simpl perform;
    try reflexivity.
  - apply refreshAlerts_normal.
  - apply searchAlerts_normal.
  - apply (refreshAlerts_normal Date_parse net
             (with_search_form (search_form_default p) p)).
  - destruct (outcome_cases post) as [F|[r ->]].
    + now apply submitAlert_failure.
    + rewrite submitAlert_success_run. apply refreshAlerts_normal.
  - now rewrite renderCpuTrendChart_state.
  - now rewrite renderAlertTypeChart_state.
Qed.

(** ** The table *)

Lemma placeholder_not_data (l : list AlertRecord) :
  ~ In placeholder_row (map row_html l).
Proof.
  intros H. apply in_map_iff in H. destruct H as (a & E & _).
  discriminate E.
Qed.

(** X6: whatever the table held before, rendering a collection leaves
    one row per record, in the order of the collection, and no
    placeholder; only the empty collection gives the placeholder, so the
    table has [max 1 n] rows for [n] records. *)
Theorem table_one_row_per_record (l : list AlertRecord) (p : Page) :
  let q := state_after renderAlertsTable (with_alertsData (Array l) p) in
  completion renderAlertsTable (with_alertsData (Array l) p) = Normal tt
  /\ alerts_table_body q = table_rows l
  /\ List.length (alerts_table_body q) = Nat.max 1 (List.length l)
  /\ (In placeholder_row (alerts_table_body q) <-> l = [])
  /\ (forall i a, nth_error l i = Some a ->
                  nth_error (alerts_table_body q) i = Some (row_html a)).
Proof.
  unfold state_after, completion.
  rewrite (@renderAlertsTable_run l (with_alertsData (Array l) p) eq_refl).
  simpl fst. simpl snd. simpl alerts_table_body.
  split; [reflexivity|]. split; [reflexivity|]. split; [|split].
  - destruct l as [|a l]; simpl; trivial. now rewrite length_map.
  - destruct l as [|a l].
    + simpl. tauto.
    + split; [|discriminate]. intros H.
      now apply placeholder_not_data in H.
  - intros i a H. destruct l as [|b l].
    + now destruct i.
    + unfold table_rows. now apply map_nth_error.
Qed.

(** ** formatMetricName *)

Lemma own_None (o : Obj.t) (k : string) :
  ~ In k (map fst o) -> Obj.own o k = None.
Proof.
  induction o as [|[k' v] o IH]; simpl; trivial.
  intros H. destruct (String.eqb k k') eqn:E.
  - apply String.eqb_eq in E. subst. tauto.
  - apply IH. tauto.
Qed.

(** X7: [formatMetricName] returns the identifier unchanged exactly when
    the identifier is neither one of the five of the table nor a name of
    [Object.prototype]; on the five it returns their labels, which are
    texts different from the identifier. *)
Theorem formatMetricName_passes_exactly (metric : string) :
  (formatMetricName metric = Prim (Text metric)
   <-> ~ In metric (map fst metric_map) /\ ~ In metric Object_prototype)
  /\ (In metric (map fst metric_map) ->
      exists label, Obj.own metric_map metric = Some (Text label)
                    /\ formatMetricName metric = Prim (Text label)
                    /\ label <> metric).
Proof.
  assert (T : In metric (map fst metric_map) ->
              exists label, Obj.own metric_map metric = Some (Text label)
                            /\ formatMetricName metric = Prim (Text label)
                            /\ label <> metric).
  { simpl. intros H.
    repeat (destruct H as [H|H];
            [subst metric; eexists; repeat split; discriminate|]).
    destruct H. }
  split; [|exact T]. split.
  - intros E. split; intros H.
    + destruct (T H) as (label & _ & E' & N). congruence.
    + apply mem_In in H.
      rewrite (formatMetricName_inherited _ H) in E. discriminate.
  - intros [H1 H2]. apply formatMetricName_passthrough.
    + now apply own_None.
    + now apply mem_false.
Qed.

(** ** The CPU trend, whatever the timestamps *)

Lemma skipn_In (A : Type) (n : nat) (l : list A) (x : A) :
  In x (skipn n l) -> In x l.
Proof.
  intros H. rewrite <- (firstn_skipn n l). apply in_or_app. now right.
Qed.

(** X8: with any timestamps, parseable or not, the CPU trend has
    [min 10 n] entries for [n] CPU records, hence never more than ten;
    every entry is a CPU record of the collection, no record is kept more
    often than it occurs, and the labels and the values of the series
    have one element per entry. *)
Theorem cpu_trend_bounded (Date_parse : string -> option Z)
    (C : list AlertRecord) :
  let cpu := filter is_cpu C in
  let kept := cpuAlerts Date_parse C in
  List.length kept = Nat.min 10 (List.length cpu)
  /\ List.length kept <= 10
  /\ (forall a, In a kept -> In a C /\ metric a = "cpu_usage")
  /\ (exists older, Permutation (older ++ kept) cpu)
  /\ List.length (labels (cpuData (processChartData Date_parse C)))
     = List.length kept
  /\ List.length (values (cpuData (processChartData Date_parse C)))
     = List.length kept.
Proof.
  intros cpu kept.
  set (sorted := Arr.sort (by_created_at Date_parse) cpu).
  assert (Hperm : Permutation sorted cpu) by apply sort_Permutation.
  assert (Hkept : kept = Arr.slice_last 10 sorted) by reflexivity.
  assert (Hlen : List.length kept = Nat.min 10 (List.length cpu)).
  { rewrite Hkept, slice_last_length. now rewrite (Permutation_length Hperm). }
  split; [exact Hlen|]. split; [lia|]. split; [|split; [|split]].
  - intros a Ha. rewrite Hkept in Ha. apply skipn_In in Ha.
    apply (Permutation_in _ Hperm) in Ha. apply filter_In in Ha.
    destruct Ha as [Ha Hm]. split; trivial. now apply String.eqb_eq.
  - exists (firstn (List.length sorted - 10) sorted).
    rewrite Hkept. now rewrite <- slice_last_suffix.
  - simpl. apply length_map.
  - simpl. apply length_map.
Qed.

Lemma sort_sorted_input (A : Type) (comparefn : A -> A -> option Z)
    (l : list A) :
  StronglySorted (fun x y => (Arr.SortCompare comparefn x y <= 0)%Z) l ->
  Arr.sort comparefn l = l.
Proof.
  induction 1 as [|x l Hs IH Hall]; trivial.
  unfold Arr.sort in *. simpl. rewrite IH.
  destruct l as [|y l]; trivial. simpl.
  inversion Hall as [|? ? Hxy _]; subst.
  destruct (Z.ltb_spec 0 (Arr.SortCompare comparefn x y)); [lia|trivial].
Qed.

(** X9: the sort moves nothing when there is nothing to move.  When the
    CPU records come from the backend already in non-decreasing order of
    time, or when none of their timestamps is a date (every comparison
    is [NaN]), the trend is the last ten CPU records in the order of the
    collection. *)
Theorem cpu_trend_keeps_backend_order (Date_parse : string -> option Z)
    (C : list AlertRecord)
    (Hordered :
       StronglySorted (time_le Date_parse) (filter is_cpu C)
       \/ (forall a, In a C -> metric a = "cpu_usage" ->
                     Date_parse (created_at a) = None)) :
  cpuAlerts Date_parse C = Arr.slice_last 10 (filter is_cpu C).
Proof.
  unfold cpuAlerts. f_equal. fold is_cpu.
  change (fun a => String.eqb (metric a) "cpu_usage") with is_cpu.
  apply sort_sorted_input. destruct Hordered as [H|H].
  - eapply (@StronglySorted_weaken _ (time_le Date_parse) _
              (fun _ => True)); [|apply Forall_forall; auto|exact H].
    intros x y _ _ (tx & ty & Ex & Ey & L).
    unfold Arr.SortCompare, by_created_at. rewrite Ex, Ey. lia.
  - assert (G : Forall (fun a => Date_parse (created_at a) = None)
                  (filter is_cpu C)).
    { apply Forall_forall. intros a Ha. apply filter_In in Ha.
      destruct Ha as [Ha Hm]. apply H; trivial. now apply String.eqb_eq. }
    induction G as [|x l Hx _ IH]; constructor; trivial.
    apply Forall_forall. intros y _.
    unfold Arr.SortCompare, by_created_at. rewrite Hx. lia.
Qed.

Lemma cpu_trend_keeps_backend_order_witness :
  let C := [ mkAlert "yesterday" "h1" "cpu_usage" 90;
             mkAlert "2024-01-01 10:00:01" "h2" "mem_usage" 50;
             mkAlert "just now" "h1" "cpu_usage" 85 ] in
  map created_at (cpuAlerts UTC.parse C) = ["yesterday"; "just now"].
Proof.
  cbv zeta.
  rewrite (@cpu_trend_keeps_backend_order UTC.parse
             [ mkAlert "yesterday" "h1" "cpu_usage" 90;
               mkAlert "2024-01-01 10:00:01" "h2" "mem_usage" 50;
               mkAlert "just now" "h1" "cpu_usage" 85 ]).
  - reflexivity.
  - right. intros a [<-|[<-|[<-|[]]]] Hm;
      [reflexivity | discriminate Hm | reflexivity].
Defined.

(** ** The shape of a label *)

Lemma contains_split (c : ascii) (s : string) :
  Str.contains c s = true ->
  exists d rest, s = (d ^ String c rest)%string /\ Str.contains c d = false.
Proof.
  induction s as [|x s IH]; simpl; [discriminate|].
  destruct (Ascii.eqb x c) eqn:E.
  - intros _. apply Ascii.eqb_eq in E. subst x.
    now exists EmptyString, s.
  - simpl. intros H. destruct (IH H) as (d & rest & -> & Hd).
    exists (String x d), rest. simpl. now rewrite E, Hd.
Qed.

Lemma append_nil_r (s : string) : (s ^ EmptyString)%string = s.
Proof. induction s as [|c s IH]; simpl; congruence. Qed.

(** X10: the label of a record is [undefined] exactly when [created_at]
    has no space; otherwise it is a text without a space, the part of
    [created_at] between its first space and the next one or the end.
    So the label is never the date part and never holds more than one
    field. *)
Theorem cpu_label_shape (a : AlertRecord) :
  (cpuLabel a = Undefined <-> Str.contains " " (created_at a) = false)
  /\ (forall t, cpuLabel a = Text t ->
        Str.contains " " t = false
        /\ exists d rest,
             created_at a = (d ^ " " ^ t ^ rest)%string
             /\ Str.contains " " d = false
             /\ (rest = EmptyString
                 \/ exists more, rest = (" " ^ more)%string)).
Proof.
  unfold cpuLabel.
  destruct (Str.contains " " (created_at a)) eqn:E.
  - destruct (contains_split _ _ E) as (d & s' & Es & Hd).
    rewrite Es, (@split_first_field _ _ _ Hd).
    destruct (Str.contains " " s') eqn:E'.
    + destruct (contains_split _ _ E') as (t & more & -> & Ht).
      rewrite (@split_first_field _ _ _ Ht). simpl. split.
      * split; discriminate.
      * intros t' Q. inversion Q; subst t'. split; trivial.
        exists d, (String " " more). repeat split; trivial.
        right. now exists more.
    + rewrite (@split_no_separator _ _ E'). simpl. split.
      * split; discriminate.
      * intros t' Q. inversion Q; subst t'. split; trivial.
        exists d, EmptyString. split; [|split; auto].
        now rewrite append_nil_r.
  - rewrite (@split_no_separator _ _ E). simpl. split.
    + tauto.
    + discriminate.
Qed.

(** ** The cards *)

Lemma JSSet_of_list_length (l : list string) :
  List.length (JSSet.of_list l) <= List.length l.
Proof.
  apply NoDup_incl_length; [apply JSSet_of_list_NoDup|].
  intros h H. now apply JSSet_of_list_In.
Qed.

Lemma count_if_split (A : Type) (test : A -> bool) (l : list A) :
  count_if test l + count_if (fun x => negb (test x)) l = List.length l.
Proof.
  induction l as [|x l IH]; simpl; trivial.
  destruct (test x); simpl; lia.
Qed.

Lemma normal_plus_anomalous (C : list AlertRecord) :
  normalCount (coreMetrics C) + count_if (fun a => (80 <? value a)%Z) C
  = total (coreMetrics C).
Proof.
  simpl. rewrite length_filter_count.
  rewrite <- (count_if_split (fun a => (value a <=? 80)%Z) C).
  f_equal. induction C as [|a C IH]; simpl; trivial.
  rewrite IH. f_equal.
  destruct (Z.leb_spec (value a) 80), (Z.ltb_spec 80 (value a));
    simpl; trivial; lia.
Qed.

Lemma error_hosts_le_anomalous (C : list AlertRecord) :
  errorHostCount C <= count_if (fun a => (80 <? value a)%Z) C.
Proof.
  unfold errorHostCount. simpl. unfold JSSet.spread.
  etransitivity; [apply JSSet_of_list_length|].
  now rewrite length_map, length_filter_count.
Qed.

Lemma error_hosts_zero (C : list AlertRecord) :
  errorHostCount C = 0 <-> count_if (fun a => (80 <? value a)%Z) C = 0.
Proof.
  split; [|pose proof (error_hosts_le_anomalous C); lia].
  unfold errorHostCount. simpl.
  unfold JSSet.spread. rewrite <- length_filter_count. intros H.
  destruct (filter _ C) as [|a l] eqn:E; trivial. exfalso.
  assert (Hin : In (hostname a) (JSSet.of_list (map hostname (a :: l))))
    by (apply JSSet_of_list_In; now left).
  destruct (JSSet.of_list _); [destruct Hin | discriminate H].
Qed.

Lemma status_by_error_hosts (C : list AlertRecord) :
  (systemStatus (coreMetrics C) = "正常" <-> errorHostCount C = 0)
  /\ (systemStatus (coreMetrics C) = "警告" <-> 0 < errorHostCount C).
Proof.
  unfold errorHostCount. simpl.
  destruct (0 <? _)%nat eqn:E.
  - apply Nat.ltb_lt in E. repeat split; trivial; try discriminate; lia.
  - apply Nat.ltb_ge in E. repeat split; trivial; try discriminate; lia.
Qed.

Lemma count_if_zero (A : Type) (test : A -> bool) (l : list A) :
  count_if test l = 0 <-> forall x, In x l -> test x = false.
Proof.
  induction l as [|y l IH]; simpl.
  - split; [intros _ x []|trivial].
  - destruct (test y) eqn:E.
    + split; [discriminate|].
      intros H. rewrite (H y (or_introl eq_refl)) in E. discriminate.
    + rewrite Nat.add_0_l, IH. split.
      * intros H x [<-|Hx]; auto.
      * intros H x Hx. apply H. now right.
Qed.

Lemma count_if_positive (A : Type) (test : A -> bool) (l : list A) :
  0 < count_if test l <-> exists x, In x l /\ test x = true.
Proof.
  induction l as [|y l IH]; simpl.
  - split; [lia|]. now intros [x [[] _]].
  - destruct (test y) eqn:E.
    + split; [|simpl; lia]. intros _. exists y. split; [now left|trivial].
    + rewrite Nat.add_0_l, IH. split.
      * intros [x [Hx T]]. exists x. split; [now right|trivial].
      * intros [x [[<-|Hx] T]]; [congruence|]. now exists x.
Qed.

(** X11: the numbers on the cards fit together, with nothing asked of
    the values.  There are never more error hosts than records above 80,
    and none exactly when no record is above 80; the normal records and
    the records above 80 together are never more than the total; the
    status is 正常 exactly when no record is above 80, and 警告 exactly
    when some record is. *)
Theorem cards_fit_together (C : list AlertRecord) :
  let m := coreMetrics C in
  let above := fun a => (80 <? value a)%Z in
  errorHostCount C <= count_if above C
  /\ (errorHostCount C = 0 <-> count_if above C = 0)
  /\ normalCount m + count_if above C <= total m
  /\ (systemStatus m = "正常" <-> forall a, In a C -> above a = false)
  /\ (systemStatus m = "警告" <-> exists a, In a C /\ above a = true).
Proof.
  intros m above.
  pose proof (normal_plus_anomalous C) as Hsum.
  pose proof (error_hosts_le_anomalous C) as Hle.
  pose proof (error_hosts_zero C) as Hzero.
  destruct (status_by_error_hosts C) as [Hnormal Hwarn].
  fold m above in Hsum, Hle, Hzero, Hnormal, Hwarn.
  split; [exact Hle|]. split; [exact Hzero|]. split; [lia|]. split.
  - rewrite Hnormal, Hzero. apply count_if_zero.
  - rewrite Hwarn, <- count_if_positive. lia.
Qed.

(** ** Queries *)

Lemma count_char_append (c : ascii) (s t : string) :
  count_char c (s ^ t) = count_char c s + count_char c t.
Proof. induction s as [|x s IH]; simpl; trivial. rewrite IH. lia. Qed.

Lemma encode_byte_clean (c b : ascii) :
  In c delimiters -> count_char c (URLSearchParams.encode_byte b) = 0.
Proof.
  intros H. simpl in H.
  repeat (destruct H as [H|H]; [subst c|]); try destruct H;
    destruct b as [[|] [|] [|] [|] [|] [|] [|] [|]]; reflexivity.
Qed.

Lemma encode_clean (c : ascii) (s : string) :
  In c delimiters -> count_char c (URLSearchParams.encode s) = 0.
Proof.
  intros H. induction s as [|b s IH]; simpl; trivial.
  now rewrite count_char_append, IH, encode_byte_clean.
Qed.

Lemma toString_count (c : ascii) (ps : URLSearchParams.t) :
  In c delimiters ->
  count_char c (URLSearchParams.toString ps)
  = (if Ascii.eqb c "=" then List.length ps else 0)
    + (if Ascii.eqb c "&" then Nat.pred (List.length ps) else 0).
Proof.
  intros H. induction ps as [|[n v] ps IH].
  - simpl. now destruct (Ascii.eqb c "="), (Ascii.eqb c "&").
  - destruct ps as [|q ps].
    + change (URLSearchParams.toString [(n, v)])
        with (URLSearchParams.encode n ^ "=" ^ URLSearchParams.encode v)%string.
      rewrite !count_char_append, !encode_clean by trivial.
      simpl in H.
      repeat (destruct H as [H|H]; [subst c; reflexivity|]). destruct H.
    + change (URLSearchParams.toString ((n, v) :: q :: ps))
        with (URLSearchParams.encode n ^ "=" ^ URLSearchParams.encode v
              ^ "&" ^ URLSearchParams.toString (q :: ps))%string.
      rewrite !count_char_append, !encode_clean, IH by trivial.
      simpl in H.
      repeat (destruct H as [H|H]; [subst c; simpl; lia|]). destruct H.
Qed.

(** X12: a serialized query cannot be misread.  No name or value, once
    encoded, holds a [&], [=], [?], [#] or a space; so the query of [n]
    parameters has exactly [n] equals signs and [n - 1] ampersands, the
    URL of a search has one question mark, and the body of a submission
    has four equals signs and three ampersands, whatever is typed in the
    forms. *)
Theorem query_cannot_be_misread (ps : URLSearchParams.t) (f : SearchForm)
    (g : AlertForm) :
  (forall c s, In c delimiters ->
               count_char c (URLSearchParams.encode s) = 0)
  /\ count_char "=" (URLSearchParams.toString ps) = List.length ps
  /\ count_char "&" (URLSearchParams.toString ps)
     = Nat.pred (List.length ps)
  /\ count_char "?" (url (search_request f)) = 1
  /\ count_char "=" (url (search_request f))
     = List.length (search_params f)
  /\ count_char "=" (body (submit_request g)) = 4
  /\ count_char "&" (body (submit_request g)) = 3.
Proof.
  split; [intros c s H; now apply encode_clean|].
  split; [rewrite toString_count; simpl; auto 10; lia|].
  split; [rewrite toString_count; simpl; auto 10|].
  split; [|split; [|split]].
  - change (url (search_request f))
      with ("/alerts/search?"
            ^ URLSearchParams.toString (search_params f))%string.
    rewrite count_char_append, toString_count by (simpl; auto 10).
    reflexivity.
  - change (url (search_request f))
      with ("/alerts/search?"
            ^ URLSearchParams.toString (search_params f))%string.
    rewrite count_char_append, toString_count by (simpl; auto 10).
    simpl. lia.
  - unfold submit_request, body.
    rewrite toString_count by (simpl; auto 10). reflexivity.
  - unfold submit_request, body.
    rewrite toString_count by (simpl; auto 10). reflexivity.
Qed.

(** X13: a search never sends an empty parameter and never sends one
    twice: its parameters are at most three, their names are among
    [hostname], [start_time], [end_time] and come in this order, and
    every value has at least one character. *)
Theorem search_sends_no_empty_field (f : SearchForm) :
  let ps := search_params f in
  List.length ps <= 3
  /\ NoDup (map fst ps)
  /\ (exists keep, map fst ps = filter keep search_names)
  /\ (forall n v, In (n, v) ps -> v <> EmptyString /\ In n search_names).
Proof.
  cbv zeta. rewrite search_params_present. unfold present.
  destruct (Str.trim (search_hostname f)) as [|c1 h] eqn:E1;
    destruct (search_start_time f) as [|c2 s] eqn:E2;
    destruct (search_end_time f) as [|c3 e] eqn:E3; simpl;
    (split; [lia|]);
    (split; [repeat constructor; simpl; intuition discriminate|]);
    split.
  all: try (intros n v H;
            repeat (destruct H as [H|H];
                    [inversion H; subst; split; [discriminate|auto]|]);
            destruct H).
  - now exists (fun _ => false).
  - now exists (fun n => String.eqb n "end_time").
  - now exists (fun n => String.eqb n "start_time").
  - now exists (fun n => negb (String.eqb n "hostname")).
  - now exists (fun n => String.eqb n "hostname").
  - now exists (fun n => negb (String.eqb n "start_time")).
  - now exists (fun n => negb (String.eqb n "end_time")).
  - now exists (fun _ => true).
Qed.

Lemma strip_white_space (w rest : string) :
  In w Str.whitespace ->
  Str.strip_any Str.whitespace (w ^ rest) = Some rest.
Proof.
  intros H. unfold Str.whitespace in H. simpl in H.
  repeat (destruct H as [H|H]; [subst w; reflexivity|]). destruct H.
Qed.

Lemma white_space_length (w : string) :
  In w Str.whitespace -> 1 <= String.length w.
Proof.
  intros H. unfold Str.whitespace in H. simpl in H.
  repeat (destruct H as [H|H]; [subst w; simpl; lia|]). destruct H.
Qed.

Lemma append_length (s t : string) :
  String.length (s ^ t) = String.length s + String.length t.
Proof. induction s as [|c s IH]; simpl; auto. Qed.

Lemma trim_start_blank (parts : list string) (fuel : nat) :
  Forall (fun w => In w Str.whitespace) parts ->
  List.length parts <= fuel ->
  Str.trim_start_fuel Str.whitespace fuel (blank parts) = EmptyString.
Proof.
  intros H. revert fuel. induction H as [|w parts Hw _ IH]; intros fuel L.
  - destruct fuel; reflexivity.
  - destruct fuel as [|fuel]; [simpl in L; lia|].
    change (Str.trim_start_fuel Str.whitespace (S fuel) (blank (w :: parts)))
      with (match Str.strip_any Str.whitespace (w ^ blank parts) with
            | Some r => Str.trim_start_fuel Str.whitespace fuel r
            | None => (w ^ blank parts)%string
            end).
    rewrite (@strip_white_space _ _ Hw). apply IH. simpl in L. lia.
Qed.

Lemma blank_length (parts : list string) :
  Forall (fun w => In w Str.whitespace) parts ->
  List.length parts <= String.length (blank parts).
Proof.
  induction 1 as [|w parts Hw _ IH]; simpl; trivial.
  rewrite append_length. pose proof (@white_space_length _ Hw). lia.
Qed.

(** X14: a host name of white space only -- spaces, tabs, line breaks,
    no-break spaces or any other white space of the language, in any
    number -- is trimmed to nothing and left out of the query; with no
    times entered the search then goes to [/alerts/search?] with no
    parameter. *)
Theorem blank_hostname_is_omitted (parts : list string)
    (start_time end_time : string)
    (Hblank : Forall (fun w => In w Str.whitespace) parts) :
  let f := {| search_hostname := blank parts;
              search_start_time := start_time;
              search_end_time := end_time |} in
  Str.trim (blank parts) = EmptyString
  /\ search_params f
     = present "start_time" start_time ++ present "end_time" end_time
  /\ (start_time = EmptyString -> end_time = EmptyString ->
      url (search_request f) = "/alerts/search?").
Proof.
  cbv zeta.
  assert (T : Str.trim (blank parts) = EmptyString).
  { unfold Str.trim, Str.trimStart.
    rewrite trim_start_blank; [reflexivity | exact Hblank |].
    now apply blank_length. }
  split; [exact T|]. split.
  - rewrite search_params_present. simpl. now rewrite T.
  - intros -> ->. unfold search_request.
    rewrite search_params_present. simpl. now rewrite T.
Qed.

Lemma blank_hostname_is_omitted_witness :
  Forall (fun w => In w Str.whitespace)
    [" "; Str.bytes [9]; Str.bytes [194; 160]]
  /\ url (search_request
            {| search_hostname :=
                 blank [" "; Str.bytes [9]; Str.bytes [194; 160]];
               search_start_time := EmptyString;
               search_end_time := EmptyString |})
     = "/alerts/search?".
Proof.
  assert (H : Forall (fun w => In w Str.whitespace)
                [" "; Str.bytes [9]; Str.bytes [194; 160]]).
  { apply Forall_forall. intros w [<-|[<-|[<-|[]]]].
    - do 5 right. left. reflexivity.
    - left. reflexivity.
    - do 6 right. left. reflexivity. }
  split; [exact H|].
  apply (proj2 (proj2 (@blank_hostname_is_omitted _ EmptyString EmptyString
                         H))); reflexivity.
Defined.

(** ** The charts after a load *)

(** X15: after a load that succeeds both slots hold a chart, the CPU
    trend a line chart on its canvas with at most ten points, the
    distribution a doughnut on its canvas; the doughnut gets one colour
    per label from the palette of six, so with more than six labels the
    later ones get none; the charts that were in the slots have been
    destroyed, so the Chart.js log has grown by two events on a fresh
    page and by four afterwards. *)
Theorem charts_after_refresh (Date_parse : string -> option Z)
    (r : Result) (p : Page) :
  let l := installed_list r in
  let q := state_after (refreshAlerts Date_parse (success r)) p in
  exists c d,
    cpuTrendChart q = Some c /\ alertTypeChart q = Some d
    /\ chart_canvas c = "cpuTrendChart" /\ chart_type c = "line"
    /\ List.length (values (chart_series c)) <= 10
    /\ chart_canvas d = "alertTypeChart" /\ chart_type d = "doughnut"
    /\ chart_colors d = firstn (List.length (alertTypeLabels l)) colors
    /\ List.length (chart_colors d)
       = Nat.min 6 (List.length (alertTypeLabels l))
    /\ chart_id c < chart_id d
    /\ List.length (chart_log q)
       = List.length (chart_log p) + 2
         + List.length (option_list (cpuTrendChart p))
         + List.length (option_list (alertTypeChart p)).
Proof.
  intros l q. unfold q, state_after. rewrite refreshAlerts_success_run.
  fold l.
  assert (Hten : List.length (map (fun a => Num (value a))
                                (cpuAlerts Date_parse l)) <= 10).
  { rewrite length_map. unfold cpuAlerts. rewrite slice_last_length. lia. }
  assert (Hcol : List.length
                   (firstn (List.length (map Text (alertTypeLabels l)))
                      colors)
                 = Nat.min 6 (List.length (alertTypeLabels l))).
  { rewrite length_firstn, length_map.
    change (List.length colors) with 6. lia. }
  destruct p as [store [c0|] [d0|] body cds sf sfd af afd log dl cs rq];
    simpl; eexists; eexists;
    (split; [reflexivity|]); (split; [reflexivity|]); simpl;
    rewrite ?length_map in *; rewrite ?length_app; simpl;
    repeat split; trivial; try lia.
Qed.

(** ** The distribution of the known metrics *)

Lemma alertTypeLabels_order (C : list AlertRecord) :
  let names := first_appearance (map formatted C) in
  alertTypeLabels C
  = map fst
      (Obj.sort_by_index
         (map (fun k => (k, Num (Z.of_nat
                                   (occurrences (map formatted C) k))))
            (filter Obj.is_index names)))
    ++ filter (fun k => negb (Obj.is_index k)) names.
Proof.
  cbv zeta. unfold alertTypeLabels, Obj.keys, Obj.entries.
  rewrite metricCount_tally. unfold tally. rewrite map_app.
  rewrite (filter_keyed _ Obj.is_index).
  rewrite (filter_keyed _ (fun k => negb (Obj.is_index k))).
  now rewrite map_fst_keyed.
Qed.

Lemma known_metric_label (a : AlertRecord) :
  In (metric a) (map fst metric_map) -> In (formatted a) known_labels.
Proof.
  unfold formatted. generalize (metric a) as m. intros m H. simpl in H.
  repeat (destruct H as [H|H]; [subst m; simpl; auto 10|]). destruct H.
Qed.

Lemma known_label_no_index (k : string) :
  In k known_labels -> Obj.is_index k = false.
Proof.
  intros H. simpl in H.
  repeat (destruct H as [H|H]; [subst k; reflexivity|]). destruct H.
Qed.

(** X16: when every metric of the collection is one of the five of the
    table, the labels of the distribution are the labels of the table
    that occur, in order of first appearance; there are at most five of
    them, the values are their occurrence counts, and the palette has a
    colour for each. *)
Theorem known_metrics_distribution (C : list AlertRecord)
    (Hknown : forall a, In a C -> In (metric a) (map fst metric_map)) :
  let names := map formatted C in
  alertTypeLabels C = first_appearance names
  /\ (forall k, In k (alertTypeLabels C) -> In k known_labels)
  /\ List.length (alertTypeLabels C) <= 5
  /\ alertTypeValues C
     = map (fun k => Num (Z.of_nat (occurrences names k)))
         (alertTypeLabels C)
  /\ List.length (firstn (List.length (alertTypeLabels C)) colors)
     = List.length (alertTypeLabels C).
Proof.
  intros names.
  assert (Hnames : forall k, In k names -> In k known_labels).
  { intros k Hk. apply in_map_iff in Hk. destruct Hk as (a & <- & Ha).
    apply known_metric_label. now apply Hknown. }
  assert (Hfa : forall k, In k (first_appearance names) ->
                          Obj.is_index k = false).
  { intros k Hk. apply known_label_no_index, Hnames.
    now apply (proj1 (In_first_appearance names k)). }
  assert (Hlabels : alertTypeLabels C = first_appearance names).
  { rewrite alertTypeLabels_order. fold names.
    rewrite (@filter_none _ Obj.is_index _ Hfa). simpl.
    apply filter_all. intros k Hk. now rewrite (Hfa k Hk). }
  assert (Hin : forall k, In k (alertTypeLabels C) -> In k known_labels).
  { intros k Hk. rewrite Hlabels in Hk. apply Hnames.
    now apply (proj1 (In_first_appearance names k)). }
  assert (Hlen : List.length (alertTypeLabels C) <= 5).
  { change 5 with (List.length known_labels).
    apply NoDup_incl_length; [|exact Hin].
    rewrite Hlabels. apply NoDup_first_appearance. }
  split; [exact Hlabels|]. split; [exact Hin|]. split; [exact Hlen|].
  split.
  - unfold alertTypeValues, alertTypeLabels. rewrite metricCount_tally.
    apply entries_values_by_key.
  - rewrite length_firstn. change (List.length colors) with 6. lia.
Qed.

Lemma known_metrics_distribution_witness :
  let C := [ mkAlert "2024-01-01 10:00:00" "h1" "mem_usage" 90;
             mkAlert "2024-01-01 10:00:01" "h2" "cpu_usage" 50;
             mkAlert "2024-01-01 10:00:02" "h2" "mem_usage" 50 ] in
  alertTypeLabels C = ["内存使用率"; "CPU使用率"].
Proof.
  cbv zeta.
  rewrite (proj1 (@known_metrics_distribution
                    [ mkAlert "2024-01-01 10:00:00" "h1" "mem_usage" 90;
                      mkAlert "2024-01-01 10:00:01" "h2" "cpu_usage" 50;
                      mkAlert "2024-01-01 10:00:02" "h2" "mem_usage" 50 ]
                    ltac:(intros a [<-|[<-|[<-|[]]]]; simpl; auto 10))).
  reflexivity.
Defined.

Lemma views_always_follow_store_witness :
  views_follow_store UTC.parse
    (run UTC.parse
       [ DoRefresh (Rejected "offline");
         EditSearch {| search_hostname := "web";
                       search_start_time := EmptyString;
                       search_end_time := EmptyString |};
         DoSearch (success {| result_alerts :=
                                Array [mkAlert "2024-01-01 10:00:00" "web-1"
                                         "cpu_usage" 91];
                              result_message := Undefined |}) ]
       (initial_page
          {| search_hostname := EmptyString; search_start_time := EmptyString;
             search_end_time := EmptyString |}
          {| form_hostname := EmptyString; form_metric := "cpu_usage";
             form_value := EmptyString; form_message := EmptyString |})).
Proof.
  apply views_always_follow_store. reflexivity.
Defined.

(** ** One step of the counting loop *)

Lemma own_put_same (o : Obj.t) (k : string) (v : prim) :
  Obj.own (Obj.put o k v) k = Some v.
Proof.
  induction o as [|[k' v'] o IH]; simpl.
  - now rewrite String.eqb_refl.
  - destruct (String.eqb k k') eqn:E; simpl; now rewrite E.
Qed.

Lemma own_put_other (o : Obj.t) (k k' : string) (v : prim) :
  k' <> k -> Obj.own (Obj.put o k v) k' = Obj.own o k'.
Proof.
  intros N. induction o as [|[k0 v0] o IH]; simpl.
  - destruct (String.eqb k' k) eqn:E; trivial.
    apply String.eqb_eq in E. congruence.
  - destruct (String.eqb k k0) eqn:E; simpl.
    + apply String.eqb_eq in E. subst k0.
      destruct (String.eqb k' k) eqn:E'; trivial.
      apply String.eqb_eq in E'. congruence.
    + now rewrite IH.
Qed.

Lemma keys_put (o : Obj.t) (k : string) (v : prim) :
  map fst (Obj.put o k v)
  = if mem k (map fst o) then map fst o else map fst o ++ [k].
Proof.
  induction o as [|[k' v'] o IH]; simpl; trivial.
  destruct (String.eqb k k') eqn:E; simpl; trivial.
  rewrite IH. now destruct (mem k (map fst o)).
Qed.

(** X17: one step of the counting loop, on any object built so far.  The
    record's formatted name gets the count one when it has no entry yet,
    and one more than before when it has a number; no other entry
    changes; a name already counted keeps its place and a new name goes
    to the end of the creation order.  The step never touches the
    prototype, because a formatted name is never a name of
    [Object.prototype]. *)
Theorem count_metric_increments (o : Obj.t) (a : AlertRecord) :
  let k := formatted a in
  let o' := count_metric o a in
  (Obj.own o k = None -> Obj.own o' k = Some (Num 1))
  /\ (forall n, Obj.own o k = Some (Num n) ->
                Obj.own o' k = Some (Num (n + 1)))
  /\ (forall k', k' <> k -> Obj.own o' k' = Obj.own o k')
  /\ map fst o'
     = (if mem k (map fst o) then map fst o else map fst o ++ [k])
  /\ k <> "__proto__".
Proof.
  intros k o'.
  assert (Hsafe : mem k Object_prototype = false)
    by apply formatted_not_inherited.
  assert (Hproto : String.eqb k "__proto__" = false).
  { destruct (String.eqb k "__proto__") eqn:E; trivial.
    apply String.eqb_eq in E. rewrite E in Hsafe. discriminate. }
  assert (Ho' : o' = Obj.put o k
                       (plus_one (js_or (Obj.get o k) (Prim (Num 0))))).
  { unfold o', count_metric, Obj.set. fold (formatted a). fold k.
    now rewrite Hproto. }
  split; [|split; [|split; [|split]]].
  - intros E. rewrite Ho', own_put_same. unfold Obj.get.
    now rewrite E, Hsafe.
  - intros n E. rewrite Ho', own_put_same. unfold Obj.get. rewrite E.
    unfold js_or. simpl. destruct (Z.eqb_spec n 0) as [->|N]; reflexivity.
  - intros k' N. rewrite Ho'. now apply own_put_other.
  - rewrite Ho'. apply keys_put.
  - intros E. rewrite E in Hproto. discriminate.
Qed.

(** ** Badges and cards *)

Lemma badge_by_threshold (a : AlertRecord) :
  String.eqb (statusLabel a) warning_badge = (80 <? value a)%Z.
Proof. unfold statusLabel. destruct (80 <? value a)%Z; reflexivity. Qed.

Lemma badges_counted (C : list AlertRecord) :
  count_if (fun a => String.eqb (statusLabel a) warning_badge) C
  = count_if (fun a => (80 <? value a)%Z) C.
Proof.
  induction C as [|a C IH]; simpl; trivial.
  now rewrite badge_by_threshold, IH.
Qed.

(** X18: the table and the cards agree, with nothing asked of the
    values.  A row carries the badge 警告 exactly when its record is
    above 80, so the rows with that badge are as many as the records
    above 80: at least as many as the error hosts, and together with the
    normal count never more than the total; and there is such a row
    exactly when the status card says 警告. *)
Theorem badges_agree_with_cards (C : list AlertRecord) :
  let warned := count_if (fun a => String.eqb (statusLabel a) warning_badge)
                  C in
  (forall a, statusLabel a = warning_badge <-> (value a > 80)%Z)
  /\ warned = count_if (fun a => (80 <? value a)%Z) C
  /\ errorHostCount C <= warned
  /\ warned + normalCount (coreMetrics C) <= total (coreMetrics C)
  /\ (0 < warned <-> systemStatus (coreMetrics C) = "警告").
Proof.
  intros warned.
  pose proof (badges_counted C) as W. fold warned in W.
  pose proof (normal_plus_anomalous C) as Hsum.
  pose proof (error_hosts_le_anomalous C) as Hle.
  pose proof (error_hosts_zero C) as Hzero.
  pose proof (proj2 (status_by_error_hosts C)) as Hwarn.
  rewrite <- W in Hsum, Hle, Hzero.
  split; [|split; [|split; [|split]]].
  - intros a. rewrite <- String.eqb_eq, badge_by_threshold, Z.ltb_lt. lia.
  - exact W.
  - exact Hle.
  - lia.
  - rewrite Hwarn. lia.
Qed.

(** ** Records whose value is a number *)

(** X21: for records whose value is a number -- which [value : Z] says
    of every record here, while the script also meets records without a
    value or with one that is no number, and those are neither above 80
    nor normal -- the normal records and the records above 80 are all
    the records: their counts add up to the total, as do the rows with
    the badge 警告 and the normal count, and the status is 正常 exactly
    when the normal count is the total. *)
Theorem numeric_values_split_the_total (C : list AlertRecord) :
  let m := coreMetrics C in
  let above := count_if (fun a => (80 <? value a)%Z) C in
  let warned := count_if (fun a => String.eqb (statusLabel a) warning_badge)
                  C in
  normalCount m + above = total m
  /\ warned + normalCount m = total m
  /\ (systemStatus m = "正常" <-> normalCount m = total m).
Proof.
  intros m above warned.
  pose proof (badges_counted C) as W. fold warned above in W.
  pose proof (normal_plus_anomalous C) as Hsum.
  pose proof (error_hosts_zero C) as Hzero.
  pose proof (proj1 (status_by_error_hosts C)) as Hnormal.
  fold m above in Hsum, Hzero, Hnormal.
  split; [exact Hsum|]. split; [lia|].
  rewrite Hnormal, Hzero. lia.
Qed.

(** ** Reading the value of a submission *)

Lemma read_stops (rest : string) (acc : option Z) :
  stops rest = true -> ParseInt.read 10 rest acc = acc.
Proof.
  destruct rest as [|c rest]; trivial. simpl.
  destruct (ParseInt.digit_value 10 c); [discriminate | trivial].
Qed.

Lemma read_digits (d : Decimal.uint) (rest : string) (acc : Z) :
  stops rest = true ->
  ParseInt.read 10 (NilEmpty.string_of_uint d ^ rest) (Some acc)
  = Some (uint_value d acc).
Proof.
  intros H. revert acc.
  induction d as [|d IH|d IH|d IH|d IH|d IH|d IH|d IH|d IH|d IH|d IH];
    intros acc;
    [ now apply read_stops | .. ];
    exact (IH _).
Qed.

Lemma read_first_digits (d : Decimal.uint) (rest : string) :
  d <> Decimal.Nil -> stops rest = true ->
  ParseInt.read 10 (NilEmpty.string_of_uint d ^ rest) None
  = Some (uint_value d 0).
Proof.
  intros N H. destruct d; try congruence;
    exact (read_digits _ rest _ H).
Qed.

Lemma of_uint_acc_value (d : Decimal.uint) (acc : positive) :
  Z.pos (Pos.of_uint_acc d acc) = uint_value d (Z.pos acc).
Proof.
  revert acc.
  induction d as [|d IH|d IH|d IH|d IH|d IH|d IH|d IH|d IH|d IH|d IH];
    intros acc; cbn [Pos.of_uint_acc uint_value]; trivial;
    rewrite IH; f_equal; lia.
Qed.

Lemma of_uint_value (d : Decimal.uint) : Z.of_uint d = uint_value d 0.
Proof.
  unfold Z.of_uint.
  induction d as [|d IH|d IH|d IH|d IH|d IH|d IH|d IH|d IH|d IH|d IH];
    cbn [Pos.of_uint uint_value Z.of_N]; trivial;
    rewrite of_uint_acc_value; f_equal.
Qed.

Lemma unsigned_decimal (d : Decimal.uint) (rest : string) :
  d <> Decimal.Nil -> stops rest = true ->
  ParseInt.unsigned (NilEmpty.string_of_uint d ^ rest)
  = Some (Z.of_uint d).
Proof.
  intros N H. rewrite of_uint_value, <- (read_first_digits rest N H).
  destruct d as [|d|d|d|d|d|d|d|d|d|d]; try congruence; try reflexivity.
  destruct d; try reflexivity.
  destruct rest as [|c rest]; [reflexivity|].
  simpl in H. simpl String.append. unfold ParseInt.unsigned.
  destruct (ParseInt.digit_value 10 c); [discriminate|].
  apply andb_true_iff in H. destruct H as [H1 H2].
  apply negb_true_iff in H1, H2. now rewrite H1, H2.
Qed.

Lemma trimStart_digit (s : string) :
  (exists c s', s = String c s'
                /\ (ParseInt.digit_value 10 c <> None \/ c = "-"%char)) ->
  Str.trimStart s = s.
Proof.
  intros (c & s' & -> & H). unfold Str.trimStart.
  change (String.length (String c s')) with (S (String.length s')).
  assert (E : Str.strip_any Str.whitespace (String c s') = None).
  { destruct c as [[|] [|] [|] [|] [|] [|] [|] [|]];
      try reflexivity; exfalso; destruct H as [H|H];
      solve [now apply H | discriminate H]. }
  change (Str.trim_start_fuel Str.whitespace (S (String.length s'))
            (String c s'))
    with (match Str.strip_any Str.whitespace (String c s') with
          | Some r =>
              Str.trim_start_fuel Str.whitespace (String.length s') r
          | None => String c s'
          end).
  now rewrite E.
Qed.

Lemma string_of_uint_first (d : Decimal.uint) (rest : string) :
  d <> Decimal.Nil ->
  exists c s', (NilEmpty.string_of_uint d ^ rest)%string = String c s'
               /\ ParseInt.digit_value 10 c <> None
               /\ c <> "-"%char /\ c <> "+"%char.
Proof.
  intros N. destruct d; try congruence; simpl;
    eexists; eexists; repeat split; discriminate.
Qed.

Lemma parseInt_unsigned (d : Decimal.uint) (rest : string) :
  d <> Decimal.Nil -> stops rest = true ->
  ParseInt.parseInt (NilEmpty.string_of_uint d ^ rest) = Some (Z.of_uint d).
Proof.
  intros N H. unfold ParseInt.parseInt.
  destruct (string_of_uint_first rest N) as (c & s' & E & Hc & Hm & Hp).
  rewrite trimStart_digit by (rewrite E; eauto).
  rewrite <- (unsigned_decimal rest N H). rewrite E.
  clear E Hc.
  destruct c as [[|] [|] [|] [|] [|] [|] [|] [|]];
    try reflexivity; exfalso; solve [now apply Hm | now apply Hp].
Qed.

Lemma string_of_uint_nonnil (d : Decimal.uint) :
  d <> Decimal.Nil ->
  NilZero.string_of_uint d = NilEmpty.string_of_uint d.
Proof. intros N. destruct d; [congruence | reflexivity ..]. Qed.

Lemma parseInt_of_Z (z : Z) (rest : string) :
  stops rest = true -> ParseInt.parseInt (Str.of_Z z ^ rest) = Some z.
Proof.
  intros H. unfold Str.of_Z. destruct z as [|p|p].
  - exact (@parseInt_unsigned (Decimal.D0 Decimal.Nil) rest
             ltac:(discriminate) H).
  - pose proof (Unsigned.to_uint_nonnil p) as N.
    change (NilZero.string_of_int (Z.to_int (Z.pos p)))
      with (NilZero.string_of_uint (Pos.to_uint p)).
    rewrite (string_of_uint_nonnil N), (@parseInt_unsigned _ rest N H).
    unfold Z.of_uint. now rewrite DecimalPos.Unsigned.of_to.
  - pose proof (Unsigned.to_uint_nonnil p) as N.
    change (NilZero.string_of_int (Z.to_int (Z.neg p)))
      with (String "-" (NilZero.string_of_uint (Pos.to_uint p))).
    rewrite (string_of_uint_nonnil N).
    unfold ParseInt.parseInt.
    rewrite trimStart_digit by (simpl; eauto).
    change (String "-" (NilEmpty.string_of_uint (Pos.to_uint p)) ^ rest)%string
      with (String "-" (NilEmpty.string_of_uint (Pos.to_uint p) ^ rest)).
    cbv iota beta.
    rewrite (@unsigned_decimal _ rest N H). simpl.
    unfold Z.of_uint. now rewrite DecimalPos.Unsigned.of_to.
Qed.

Lemma submit_request_body (f : AlertForm) :
  body (submit_request f)
  = URLSearchParams.toString
      [ ("hostname", Str.trim (form_hostname f));
        ("metric", form_metric f);
        ("value", ParseInt.show (ParseInt.parseInt (form_value f)));
        ("message", submit_message f) ].
Proof.
  unfold submit_request, submit_message, body.
  now destruct (Str.is_empty (Str.trim (form_message f))).
Qed.

Lemma submit_message_not_empty (f : AlertForm) :
  submit_message f <> EmptyString.
Proof.
  unfold submit_message.
  destruct (Str.trim (form_message f)) as [|c s] eqn:E; simpl.
  - destruct (ToString (formatMetricName (form_metric f))); discriminate.
  - discriminate.
Qed.

(** X19: a value typed as an integer (of a size a double holds), with
    or without text after it that is no digit, is sent as that integer in
    decimal: [parseInt] reads the leading integer and drops the rest.
    The body then holds the trimmed host name, the metric, that integer
    and a message that is never empty. *)
Theorem submit_sends_leading_integer (f : AlertForm) (z : Z)
    (rest : string)
    (Hrange : (Z.abs z < 2 ^ 53)%Z)
    (Hvalue : form_value f = (Str.of_Z z ^ rest)%string)
    (Hstop : stops rest = true) :
  ParseInt.parseInt (form_value f) = Some z
  /\ body (submit_request f)
     = URLSearchParams.toString
         [ ("hostname", Str.trim (form_hostname f));
           ("metric", form_metric f);
           ("value", Str.of_Z z);
           ("message", submit_message f) ]
  /\ submit_message f <> EmptyString.
Proof.
  assert (P : ParseInt.parseInt (form_value f) = Some z)
    by (rewrite Hvalue; now apply parseInt_of_Z).
  split; [exact P|]. split; [|apply submit_message_not_empty].
  now rewrite submit_request_body, P.
Qed.

Lemma submit_sends_leading_integer_witness :
  body (submit_request
          {| form_hostname := " web-01 "; form_metric := "cpu_usage";
             form_value := "95%"; form_message := "  " |})
  = ("hostname=web-01&metric=cpu_usage&value=95"
     ^ "&message=CPU%E4%BD%BF%E7%94%A8%E7%8E%87%E5%BC%82%E5%B8%B8")%string.
Proof.
  rewrite (proj1 (proj2 (@submit_sends_leading_integer
                           {| form_hostname := " web-01 ";
                              form_metric := "cpu_usage";
                              form_value := "95%"; form_message := "  " |}
                           95 "%" eq_refl eq_refl eq_refl))).
  reflexivity.
Defined.

(** X20: the script does not validate the value.  When the value, after
    leading white space, is empty or starts with anything but a digit or
    a sign, [parseInt] gives [NaN], and the submission is sent all the
    same, with the text [NaN] as its value. *)
Theorem submit_without_number_sends_NaN (f : AlertForm)
    (Hnone : match Str.trimStart (form_value f) with
             | EmptyString => True
             | String c _ =>
                 ParseInt.digit_value 10 c = None
                 /\ c <> "-"%char /\ c <> "+"%char
             end) :
  ParseInt.parseInt (form_value f) = None
  /\ body (submit_request f)
     = URLSearchParams.toString
         [ ("hostname", Str.trim (form_hostname f));
           ("metric", form_metric f);
           ("value", "NaN");
           ("message", submit_message f) ]
  /\ (forall Date_parse post get p,
        alert_form p = f ->
        In (submit_request f)
          (requests (state_after (submitAlert Date_parse post get) p))).
Proof.
  assert (P : ParseInt.parseInt (form_value f) = None).
  { unfold ParseInt.parseInt.
    destruct (Str.trimStart (form_value f)) as [|c s]; [reflexivity|].
    destruct Hnone as (Hd & Hm & Hp).
    assert (U : ParseInt.unsigned (String c s) = None).
    { unfold ParseInt.unsigned.
      assert (R : ParseInt.read 10 (String c s) None = None)
        by (simpl; now rewrite Hd).
      destruct c as [[|] [|] [|] [|] [|] [|] [|] [|]]; try exact R.
      discriminate Hd. }
    destruct c as [[|] [|] [|] [|] [|] [|] [|] [|]]; try exact U;
      exfalso; solve [now apply Hm | now apply Hp]. }
  split; [exact P|]. split.
  - now rewrite submit_request_body, P.
  - intros Date_parse post get p E. unfold state_after.
    destruct (submitAlert_effects Date_parse post get p) as (R & _).
    rewrite R. apply in_or_app. right. simpl. left. now rewrite E.
Qed.

Lemma submit_without_number_sends_NaN_witness :
  body (submit_request
          {| form_hostname := "web-01"; form_metric := "mem_usage";
             form_value := " high"; form_message := "check" |})
  = "hostname=web-01&metric=mem_usage&value=NaN&message=check".
Proof.
  rewrite (proj1 (proj2 (@submit_without_number_sends_NaN
                           {| form_hostname := "web-01";
                              form_metric := "mem_usage";
                              form_value := " high";
                              form_message := "check" |}
                           ltac:(simpl; repeat split; discriminate)))).
  reflexivity.
Defined.
